(** * Shard / replica lifecycle manager ([controller.py])

    A shallow embedding of the [ShardHandler] class: the splitter, the
    mapping, the [data] directory and the replication helpers, together
    with the properties of the specification that concern them.

    Python values are modelled as follows.
    - [int] is [Z]; [divmod] is [Z.div] / [Z.modulo] (both floor, as in
      Python) and raises [ZeroDivisionError] on a zero divisor.
    - [str] is [string]; characters are 8-bit, so [\d] is [0-9].
    - a file opened with mode ['r'] is read in text mode, with universal
      newlines; [os.linesep] is ["\n"], so mode ['w'] stores the characters
      it is given; [copyfile] copies the stored characters.
    - a [dict] is an association list in insertion order, which is the
      order [dict.keys()] and [json.dump] follow.
    - the directory [data] is an optional association list from file names
      to contents ([None]: the directory does not exist); [os.listdir]
      returns the names in the order of the list.
    - a method is a function from the state to a result and a new state;
      an exception keeps the state reached when it was raised. *)

From Stdlib Require Import ZArith List String Ascii Bool Lia.
From Stdlib Require Import DecimalString DecimalZ DecimalFacts.
Import ListNotations.

Local Open Scope string_scope.
Local Open Scope Z_scope.
Local Open Scope list_scope.

(** ** Python builtins used by the controller *)

Module Py.

(** The exceptions the modelled code can raise. *)
Inductive exn : Type :=
| ZeroDivisionError
| IndexError
| ValueError
| FileNotFoundError.

Definition exn_name (e : exn) : string :=
  match e with
  | ZeroDivisionError => "ZeroDivisionError"
  | IndexError => "IndexError"
  | ValueError => "ValueError"
  | FileNotFoundError => "FileNotFoundError"
  end.

Inductive result (A : Type) : Type :=
| Ok (a : A)
| Raise (e : exn).
Arguments Ok {A} a.
Arguments Raise {A} e.

Definition rbind {A B : Type} (r : result A) (k : A -> result B) : result B :=
  match r with
  | Ok a => k a
  | Raise e => Raise e
  end.

(** [len(s)] *)
Definition len (s : string) : Z := Z.of_nat (String.length s).

(** [str(n)] for an integer. *)
Definition str (n : Z) : string := NilZero.string_of_int (Z.to_int n).

(** [int(s)] for a string: an optional sign followed by decimal digits.
    (Python also strips white space and accepts underscores between
    digits; no string handled by the controller has either.) *)
Definition int (s : string) : result Z :=
  let parsed :=
    match s with
    | String "+" s' => option_map Z.of_uint (NilZero.uint_of_string s')
    | _ => option_map Z.of_int (NilZero.int_of_string s)
    end in
  match parsed with
  | Some z => Ok z
  | None => Raise ValueError
  end.

(** [divmod(a, b)] *)
Definition divmod (a b : Z) : result (Z * Z) :=
  if b =? 0 then Raise ZeroDivisionError else Ok (a / b, a mod b).

(** [range(n)] *)
Definition range (n : Z) : list Z := map Z.of_nat (seq 0 (Z.to_nat n)).

(** Normalisation of a slice bound against a length: a negative bound
    counts from the end, and every bound is clamped to [0 .. length]. *)
Definition clamp_index (length i : Z) : Z :=
  if i <? 0 then Z.max (i + length) 0 else Z.min i length.

(** [s[lo:hi]], either bound optional. *)
Definition slice (s : string) (lo hi : option Z) : string :=
  let a := match lo with Some i => clamp_index (len s) i | None => 0 end in
  let b := match hi with Some i => clamp_index (len s) i | None => len s end in
  substring (Z.to_nat a) (Z.to_nat (b - a)) s.

(** [''.join(l)] *)
Definition join (l : list string) : string := String.concat "" l.

(** [l[-1] += x]; an empty list has no last element. *)
Fixpoint append_to_last (l : list string) (x : string) : result (list string) :=
  match l with
  | [] => Raise IndexError
  | [y] => Ok [(y ++ x)%string]
  | y :: l' => rbind (append_to_last l' x) (fun r => Ok (y :: r))
  end.

(** [needle in hay] for strings. *)
Fixpoint str_in (needle hay : string) : bool :=
  prefix needle hay ||
  match hay with
  | EmptyString => false
  | String _ hay' => str_in needle hay'
  end.

(** [max(l)] for a list of integers. *)
Definition max_int (l : list Z) : result Z :=
  match l with
  | [] => Raise ValueError
  | x :: l' => Ok (fold_left Z.max l' x)
  end.

(** [max(l)] for a list of strings: strings compare character by
    character (a proper prefix is smaller), and the first of several
    largest elements is returned. *)
Definition max_str (l : list string) : result string :=
  match l with
  | [] => Raise ValueError
  | x :: l' => Ok (fold_left (fun m s => if String.ltb m s then s else m) l' x)
  end.

Definition is_digit (c : ascii) : bool :=
  let n := nat_of_ascii c in (48 <=? n)%nat && (n <=? 57)%nat.

(** [re.findall("\-(\d+)", s)]: the digit runs that directly follow a
    dash, left to right.  [cur] is the match in progress: [None] outside
    a match, [Some ds] after a dash and the digits [ds]. *)
Fixpoint findall_dash_digits_from (cur : option string) (s : string) : list string :=
  let emit := match cur with
              | Some (String c ds) => [String c ds]
              | _ => []
              end in
  match s with
  | EmptyString => emit
  | String c s' =>
      match cur with
      | Some ds =>
          if is_digit c
          then findall_dash_digits_from (Some (ds ++ String c "")%string) s'
          else emit ++
               findall_dash_digits_from (if Ascii.eqb c "-" then Some "" else None)%string s'
      | None =>
          findall_dash_digits_from (if Ascii.eqb c "-" then Some "" else None)%string s'
      end
  end.

Definition findall_dash_digits (s : string) : list string :=
  findall_dash_digits_from None s.

End Py.
Import Py.

(** ** The splitter *)

(** [ShardHandler._generate_sharded_data] *)
Definition _generate_sharded_data (count : Z) (data : string) : result (list string) :=
  rbind (divmod (len data) count) (fun '(splicenum, rem) =>
  let result := map (fun z => slice data (Some (splicenum * z))
                                         (Some (splicenum * (z + 1))))
                    (range count) in
  if rem >? 0
  then append_to_last result (slice data (Some (- rem)) None)
  else Ok result).


(** ** The state of a handler and of its files *)

(** One value of the mapping: [{'start': ..., 'end': ...}]. *)
Record entry : Type := mkEntry { start : Z; end_ : Z }.

Section Assoc.
Context {V : Type}.

(** [d.get(k)], and the content of the file named [k]. *)
Fixpoint assoc_get (k : string) (d : list (string * V)) : option V :=
  match d with
  | [] => None
  | (k', v) :: d' => if String.eqb k' k then Some v else assoc_get k d'
  end.

(** [d.update({k: v})], and writing the file named [k]: an existing key
    keeps its place, a new key goes last. *)
Fixpoint assoc_set (k : string) (v : V) (d : list (string * V)) : list (string * V) :=
  match d with
  | [] => [(k, v)]
  | (k', v') :: d' =>
      if String.eqb k' k then (k, v) :: d' else (k', v') :: assoc_set k v d'
  end.

(** Deleting the file named [k]. *)
Definition assoc_del (k : string) (d : list (string * V)) : list (string * V) :=
  filter (fun kv => negb (String.eqb (fst kv) k)) d.
End Assoc.

Definition dict : Type := list (string * entry).
Definition directory : Type := list (string * string).

Record state : Type := mkState {
  mapping : dict;                 (* self.mapping *)
  mapfile : option dict;          (* the content of mapping.json, if it exists *)
  data_dir : option directory;    (* the directory data, if it exists *)
  stdout : list string            (* the lines printed so far *)
}.

Definition set_mapping (m : dict) (st : state) : state :=
  mkState m (mapfile st) (data_dir st) (stdout st).
Definition set_mapfile (f : option dict) (st : state) : state :=
  mkState (mapping st) f (data_dir st) (stdout st).
Definition set_data_dir (d : option directory) (st : state) : state :=
  mkState (mapping st) (mapfile st) d (stdout st).
Definition set_stdout (o : list string) (st : state) : state :=
  mkState (mapping st) (mapfile st) (data_dir st) o.

(** A method: state in, result and state out. *)
Definition M (A : Type) : Type := state -> result A * state.

Definition ret {A : Type} (a : A) : M A := fun st => (Ok a, st).
Definition raise {A : Type} (e : exn) : M A := fun st => (Raise e, st).
Definition bind {A B : Type} (m : M A) (k : A -> M B) : M B :=
  fun st =>
    match m st with
    | (Ok a, st') => k a st'
    | (Raise e, st') => (Raise e, st')
    end.
Definition lift {A : Type} (r : result A) : M A := fun st => (r, st).
Definition gets {A : Type} (f : state -> A) : M A := fun st => (Ok (f st), st).
Definition modify (f : state -> state) : M unit := fun st => (Ok tt, f st).

(** [try: m  except e: h] *)
Definition try_except {A : Type} (m : M A) (e : exn) (h : M A) : M A :=
  fun st =>
    match m st with
    | (Raise e', st') =>
        if String.eqb (exn_name e') (exn_name e) then h st' else (Raise e', st')
    | r => r
    end.

Declare Scope py_scope.
Delimit Scope py_scope with py.
Notation "x <- m ;; k" := (bind m (fun x => k))
  (at level 61, m at next level, right associativity) : py_scope.
Notation "m ;; k" := (bind m (fun _ => k))
  (at level 61, right associativity) : py_scope.
Local Open Scope py_scope.

(** [for x in l: f(x)] *)
Fixpoint for_each {A : Type} (l : list A) (f : A -> M unit) : M unit :=
  match l with
  | [] => ret tt
  | x :: l' => f x ;; for_each l' f
  end.

(** [enumerate(l)], counting from [i]. *)
Fixpoint enumerate_from {A : Type} (i : Z) (l : list A) : list (Z * A) :=
  match l with
  | [] => []
  | x :: l' => (i, x) :: enumerate_from (i + 1) l'
  end.
Definition enumerate {A : Type} (l : list A) : list (Z * A) := enumerate_from 0 l.

(** *** File primitives on the directory [data] *)

(** [os.listdir("data")] *)
Definition listdir : M (list string) :=
  fun st =>
    match data_dir st with
    | Some fs => (Ok (map fst fs), st)
    | None => (Raise FileNotFoundError, st)
    end.

(** The characters stored in [data/<name>], as [copyfile] reads them. *)
Definition read_file (name : string) : M string :=
  fun st =>
    match data_dir st with
    | Some fs =>
        match assoc_get name fs with
        | Some content => (Ok content, st)
        | None => (Raise FileNotFoundError, st)
        end
    | None => (Raise FileNotFoundError, st)
    end.

(** The carriage return and the line feed. *)
Definition CR : ascii := "013"%char.
Definition LF : ascii := "010"%char.

(** What text mode gives back for the stored characters: universal
    newlines turn ["\r\n"] and a lone ["\r"] into ["\n"]. *)
Fixpoint universal_newlines (s : string) : string :=
  match s with
  | EmptyString => EmptyString
  | String c s' =>
      if Ascii.eqb c CR
      then match s' with
           | String c' s'' =>
               if Ascii.eqb c' LF
               then String LF (universal_newlines s'')
               else String LF (universal_newlines s')
           | EmptyString => String LF (universal_newlines s')
           end
      else String c (universal_newlines s')
  end.

(** [open(f"data/{name}", 'r').read()] *)
Definition read_text (name : string) : M string :=
  content <- read_file name ;;
  ret (universal_newlines content).

(** [open(f"data/{name}", 'w').write(content)] *)
Definition write_file (name content : string) : M unit :=
  fun st =>
    match data_dir st with
    | Some fs => (Ok tt, set_data_dir (Some (assoc_set name content fs)) st)
    | None => (Raise FileNotFoundError, st)
    end.

(** [if not os.path.exists("data"): os.mkdir("data")] *)
Definition mkdir_if_missing : M unit :=
  fun st =>
    match data_dir st with
    | Some _ => (Ok tt, st)
    | None => (Ok tt, set_data_dir (Some []) st)
    end.

(** [rmtree("./data")] *)
Definition rmtree : M unit :=
  fun st =>
    match data_dir st with
    | Some _ => (Ok tt, set_data_dir None st)
    | None => (Raise FileNotFoundError, st)
    end.

(** [os.remove(f"data/{name}")] *)
Definition os_remove (name : string) : M unit :=
  fun st =>
    match data_dir st with
    | Some fs =>
        match assoc_get name fs with
        | Some _ => (Ok tt, set_data_dir (Some (assoc_del name fs)) st)
        | None => (Raise FileNotFoundError, st)
        end
    | None => (Raise FileNotFoundError, st)
    end.

(** [copyfile(f"data/{src}", f"data/{dst}")], for [src] and [dst] distinct
    (the one call of the controller copies a name without a dash to a name
    with one). *)
Definition copyfile (src dst : string) : M unit :=
  content <- read_file src ;;
  write_file dst content.

(** [print(s)] *)
Definition print (s : string) : M unit :=
  modify (fun st => set_stdout (stdout st ++ [s]) st).

(** ** The methods of [ShardHandler] *)

(** [ShardHandler.write_map] *)
Definition write_map : M unit :=
  modify (fun st => set_mapfile (Some (mapping st)) st).

(** [ShardHandler.load_map] *)
Definition load_map : M dict :=
  gets (fun st => match mapfile st with
                  | None => []
                  | Some m => m
                  end).

(** [ShardHandler._write_shard] *)
Definition _write_shard (num : Z) (data : string) : M unit :=
  mkdir_if_missing ;;
  write_file (str num ++ ".txt") data ;;
  modify (fun st =>
    set_mapping (assoc_set (str num)
                           {| start := num * len data;
                              end_ := (num + 1) * len data |}
                           (mapping st)) st).

Definition already_sharded : string :=
  "Cannot build shard setup -- sharding already exists.".

(** [ShardHandler.build_shards]: the value returned is [None] after a
    build and the message string when a mapping already exists. *)
Definition build_shards (count : Z) (data : string) : M (option string) :=
  m <- gets mapping ;;
  match m with
  | _ :: _ => ret (Some already_sharded)
  | [] =>
      spliced_data <- lift (_generate_sharded_data count data) ;;
      for_each (enumerate spliced_data) (fun '(num, d) => _write_shard num d) ;;
      write_map ;;
      ret None
  end.

(** [ShardHandler.load_data_from_shards] *)
Fixpoint read_shards (keys : list string) : M (list string) :=
  match keys with
  | [] => ret []
  | db :: keys' =>
      content <- read_text (db ++ ".txt") ;;
      rest <- read_shards keys' ;;
      ret (content :: rest)
  end.

Definition load_data_from_shards : M string :=
  m <- gets mapping ;;
  result <- read_shards (map fst m) ;;
  ret (join result).

(** [[int(z) for z in keys]] *)
Fixpoint ints (keys : list string) : result (list Z) :=
  match keys with
  | [] => Ok []
  | z :: keys' =>
      rbind (int z) (fun n => rbind (ints keys') (fun ns => Ok (n :: ns)))
  end.

(** [ShardHandler.add_shard]; [keys.sort()] does not change [max(keys)]
    and is left out. *)
Definition add_shard : M unit :=
  m <- load_map ;;
  modify (set_mapping m) ;;
  data <- load_data_from_shards ;;
  m <- gets mapping ;;
  keys <- lift (ints (map fst m)) ;;
  top <- lift (max_int keys) ;;
  let new_shard_num := str (top + 2) in
  count <- lift (int new_shard_num) ;;
  spliced_data <- lift (_generate_sharded_data count data) ;;
  for_each (enumerate spliced_data) (fun '(num, d) => _write_shard num d) ;;
  write_map.

(** [ShardHandler.remove_shard] *)
Definition remove_shard : M unit :=
  m <- load_map ;;
  modify (set_mapping m) ;;
  data <- load_data_from_shards ;;
  m <- gets mapping ;;
  keys <- lift (ints (map fst m)) ;;
  top <- lift (max_int keys) ;;
  let new_shard_num := str top in
  rmtree ;;
  modify (set_mapping []) ;;
  try_except
    (count <- lift (int new_shard_num) ;;
     build_shards count data ;;
     ret tt)
    ZeroDivisionError
    (print new_shard_num) ;;
  write_map.

(** [ShardHandler.current_replication]: the level, as a string. *)
Definition current_replication : M string :=
  files <- listdir ;;
  let f := filter (str_in "-") files in
  let reps := ["0"] ++ flat_map findall_dash_digits f in
  lift (max_str reps).

(** [ShardHandler.add_replication] *)
Definition add_replication : M unit :=
  files <- listdir ;;
  highest_rep <- current_replication ;;
  level <- lift (int highest_rep) ;;
  let highest_rep := level + 1 in
  for_each files (fun f1 =>
    if negb (str_in "-" f1)
    then
      let file_name := slice f1 None (Some (-4)) in
      copyfile f1 (file_name ++ "-" ++ str highest_rep ++ ".txt")
    else ret tt) ;;
  write_map.

(** [ShardHandler.remove_replication] *)
Definition remove_replication : M unit :=
  highest_rep_num <- current_replication ;;
  files <- listdir ;;
  for_each files (fun f =>
    if str_in ("-" ++ highest_rep_num) f then os_remove f else ret tt).

(** [ShardHandler.sync_replication].  [set(self.mapping.keys())] is
    walked in the order of the mapping; the level is read again for every
    key, as [range(int(self.current_replication()))] stands inside the
    outer loop. *)
Definition sync_replication : M unit :=
  m <- gets mapping ;;
  for_each (nodup string_dec (map fst m)) (fun key =>
    let primary := (key ++ ".txt")%string in
    highest <- current_replication ;;
    level <- lift (int highest) ;;
    for_each (range level) (fun x =>
      let rep := (key ++ "-" ++ str (x + 1) ++ ".txt")%string in
      copyfile rep primary)).

(** The argument of [get_shard_data]: [None] (the default), an integer
    or a string. *)
Inductive shard_arg : Type :=
| ArgNone
| ArgInt (z : Z)
| ArgStr (s : string).

(** [not shardnum] *)
Definition falsy (a : shard_arg) : bool :=
  match a with
  | ArgNone => true
  | ArgInt z => z =? 0
  | ArgStr s => String.eqb s ""
  end.

(** [self.mapping.get(shardnum)]: the keys of the mapping are strings,
    and no integer is equal to one. *)
Definition mapping_get (a : shard_arg) (m : dict) : option entry :=
  match a with
  | ArgStr s => assoc_get s m
  | _ => None
  end.

(** What [get_shard_data] returns: the mapping itself or a string. *)
Inductive shard_data : Type :=
| AllShards (m : dict)
| Message (s : string).

(** [f"{data}"] for a mapping value: [{'start': 0, 'end': 5}]. *)
Definition format_entry (e : entry) : string :=
  "{'start': " ++ str (start e) ++ ", 'end': " ++ str (end_ e) ++ "}".

(** [f"{shardnum}"] *)
Definition format_arg (a : shard_arg) : string :=
  match a with
  | ArgNone => "None"
  | ArgInt z => str z
  | ArgStr s => s
  end.

Section GetShardData.
(** [f"{self.mapping.keys()}"]: the text [dict_keys([...])] with the
    [repr] of every key; it is a parameter here. *)
Variable format_keys : list string -> string.

(** [ShardHandler.get_all_shard_data] *)
Definition get_all_shard_data : M dict := gets mapping.

(** [ShardHandler.get_shard_data]; a mapping value is a dict of two
    keys, so [not data] holds only for a missing key. *)
Definition get_shard_data (shardnum : shard_arg) : M shard_data :=
  if falsy shardnum
  then (m <- get_all_shard_data ;; ret (AllShards m))
  else
    m <- gets mapping ;;
    match mapping_get shardnum m with
    | None =>
        ret (Message ("Invalid shard ID. Valid shard IDs: "
                      ++ format_keys (map fst m)))
    | Some data =>
        ret (Message ("Shard " ++ format_arg shardnum ++ ": "
                      ++ format_entry data))
    end.
End GetShardData.

(** [ShardHandler.__init__]: the mapping is read from the mapping file. *)
Definition init : M unit :=
  m <- load_map ;;
  modify (set_mapping m).

(** [ShardHandler.__init__], in a directory with neither [mapping.json]
    nor [data]. *)
Definition fresh : state :=
  {| mapping := []; mapfile := None; data_dir := None; stdout := [] |}.

(** Running a method for its final state. *)
Definition exec {A : Type} (m : M A) (st : state) : state := snd (m st).


(** ** Vocabulary of the properties *)

(** The outcome is the exception whose class has the given name. *)
Definition fails_with {A : Type} (name : string) (r : result A * state) : Prop :=
  exists e, fst r = Raise e /\ exn_name e = name.

(** The outcome is a normal return. *)
Definition returns {A : Type} (r : result A * state) : Prop :=
  exists a, fst r = Ok a.

(** The keys [str(0)], ..., [str(n-1)] of [n] shards, in that order. *)
Definition shard_keys (n : nat) : list string :=
  map (fun i => str (Z.of_nat i)) (seq 0 n).

(** A built state with [n] shards: the mapping in memory and the one in
    [mapping.json] agree, their keys are the ids [0 .. n-1] in ascending
    order, and every shard has its file.  Nothing is said about the other
    files of the directory (replicas, for instance). *)
Definition built (n : nat) (st : state) : Prop :=
  exists fs,
    mapfile st = Some (mapping st) /\
    map fst (mapping st) = shard_keys n /\
    data_dir st = Some fs /\
    forall k, In k (shard_keys n) -> assoc_get (k ++ ".txt") fs <> None.

(** Every character of the string satisfies [p]. *)
Fixpoint all_chars (p : ascii -> bool) (s : string) : bool :=
  match s with
  | EmptyString => true
  | String c s' => p c && all_chars p s'
  end.

(** Setting several keys in turn. *)
Fixpoint assoc_set_all {V : Type} (kvs : list (string * V)) (d : list (string * V))
  : list (string * V) :=
  match kvs with
  | [] => d
  | (k, v) :: kvs' => assoc_set_all kvs' (assoc_set k v d)
  end.

(** What [_write_shard] stores for the pieces of an enumeration: the
    files and the mapping entries. *)
Definition shard_files (nds : list (Z * string)) : directory :=
  map (fun '(num, d) => ((str num ++ ".txt")%string, d)) nds.

Definition shard_entries (nds : list (Z * string)) : dict :=
  map (fun '(num, d) =>
         (str num, {| start := num * len d; end_ := (num + 1) * len d |})) nds.

(** The state after the loop over [enumerate(spliced_data)]. *)
Definition after_write_shards (nds : list (Z * string)) (st : state) : state :=
  match nds with
  | [] => st
  | _ :: _ =>
      {| mapping := assoc_set_all (shard_entries nds) (mapping st);
         mapfile := mapfile st;
         data_dir := Some (assoc_set_all (shard_files nds)
                             (match data_dir st with
                              | Some fs => fs
                              | None => []
                              end));
         stdout := stdout st |}
  end.

(** Some states reached from [fresh]. *)
Definition one_shard : state := exec (build_shards 1 "abc") fresh.

Definition two_shards_replicated : state :=
  exec (build_shards 2 "abcdef" ;; add_replication) fresh.

Definition one_shard_replicated : state :=
  exec (build_shards 1 "abc" ;; add_replication) fresh.

Fixpoint repeat_m (n : nat) (m : M unit) : M unit :=
  match n with
  | O => ret tt
  | S n' => m ;; repeat_m n' m
  end.

Definition nine_levels : state :=
  exec (build_shards 1 "a" ;; repeat_m 9 add_replication) fresh.

(** ** Vocabulary of the further properties *)

(** A state with a reloaded mapping, as [add_shard] and [remove_shard]
    have it after their first line. *)
Definition reloaded (st : state) : state :=
  set_mapping (match mapfile st with Some m => m | None => [] end) st.

(** A built state whose shard 1 lost its file. *)
Definition shard_lost : state :=
  exec (build_shards 2 "abcdef" ;; os_remove "1.txt") fresh.

(** A non-empty string of decimal digits. *)
Definition digit_string (s : string) : Prop :=
  s <> "" /\ all_chars is_digit s = true.

(** The second state has the mapping, the mapping file and the output
    of the first, and the same content under every name without a dash. *)
Definition keeps_primaries (s s' : state) : Prop :=
  mapping s' = mapping s /\ mapfile s' = mapfile s /\ stdout s' = stdout s /\
  forall name, str_in "-" name = false ->
               fst (read_file name s') = fst (read_file name s).

(** The content of a file of the directory. *)
Definition content_of (fs : directory) (name : string) : string :=
  match assoc_get name fs with
  | Some content => content
  | None => ""
  end.

(** The name [add_replication] gives the copy of [f1] at a level:
    [f"{f1[:-4]}-{level}.txt"]. *)
Definition replica_of (f1 : string) (level : Z) : string :=
  slice f1 None (Some (-4)) ++ "-" ++ str level ++ ".txt".

(** The names without a dash. *)
Definition primaries (names : list string) : list string :=
  filter (fun f1 => negb (str_in "-" f1)) names.

(** The copies [add_replication] makes of the files of [fs] at a level. *)
Definition copies (level : Z) (fs : directory) (files : list string) : directory :=
  map (fun f1 => (replica_of f1 level, content_of fs f1)) (primaries files).

(** The state after [build_shards(2, "abcdef")]. *)
Definition two_shards : state := exec (build_shards 2 "abcdef") fresh.

(** The replica of a key at a level, as [sync_replication] names it:
    [f"{key}-{level}.txt"]. *)
Definition replica (key : string) (level : Z) : string :=
  key ++ "-" ++ str level ++ ".txt".

(** What [sync_replication] puts in the primaries of the keys: the
    content of their replica at the level. *)
Definition synced (level : Z) (fs : directory) (keys : list string) : directory :=
  map (fun key => ((key ++ ".txt")%string, content_of fs (replica key level))) keys.

(** A directory that holds the primaries of [n] shards and their
    replicas of the levels 1 to [L], and nothing else, every name once. *)
Definition replicated (n L : nat) (fs : directory) : Prop :=
  NoDup (map fst fs) /\
  forall name,
    In name (map fst fs) <->
    (exists i, (i < n)%nat /\ name = (str (Z.of_nat i) ++ ".txt")%string) \/
    (exists i x, (i < n)%nat /\ (1 <= x <= L)%nat /\
                 name = replica (str (Z.of_nat i)) (Z.of_nat x)).

(** The second state has the mapping of the first and the same content
    under every name without a dash. *)
Definition same_shards (s s' : state) : Prop :=
  mapping s' = mapping s /\
  forall name, str_in "-" name = false ->
               fst (read_file name s') = fst (read_file name s).

(** * Properties *)

(** ** Strings *)

Section Strings.

Lemma append_empty_r (s : string) : (s ++ "")%string = s.
Proof. induction s as [|c s IH]; simpl; [reflexivity | now rewrite IH]. Qed.

Lemma append_assoc (s t u : string) :
  ((s ++ t) ++ u)%string = (s ++ (t ++ u))%string.
Proof. induction s as [|c s IH]; simpl; [reflexivity | now rewrite IH]. Qed.

Lemma length_append (s t : string) :
  String.length (s ++ t) = (String.length s + String.length t)%nat.
Proof. induction s as [|c s IH]; simpl; [reflexivity | now rewrite IH]. Qed.

Lemma append_inj_l (s1 s2 t : string) :
  (s1 ++ t)%string = (s2 ++ t)%string -> s1 = s2.
Proof.
  revert s2; induction s1 as [|c s1 IH]; intros [|c2 s2] H; simpl in H.
  - reflexivity.
  - apply (f_equal String.length) in H; simpl in H.
    rewrite length_append in H; lia.
  - apply (f_equal String.length) in H; simpl in H.
    rewrite length_append in H; lia.
  - injection H as -> H. f_equal. now apply IH.
Qed.

Lemma substring_0_length (s : string) : substring 0 (String.length s) s = s.
Proof. induction s as [|c s IH]; simpl; [reflexivity | now rewrite IH]. Qed.

Lemma substring_empty (n m : nat) : substring n m "" = "".
Proof. destruct n, m; reflexivity. Qed.

Lemma substring_split (s : string) :
  forall n a b,
    substring n (a + b) s = (substring n a s ++ substring (n + a) b s)%string.
Proof.
  induction s as [|c s IH]; intros n a b.
  - now rewrite !substring_empty.
  - destruct n as [|n]; simpl.
    + destruct a as [|a]; simpl; [reflexivity|].
      f_equal. apply (IH 0%nat).
    + apply IH.
Qed.

Lemma join_cons (x : string) (l : list string) :
  join (x :: l) = (x ++ join l)%string.
Proof.
  unfold join; destruct l; simpl; [now rewrite append_empty_r | reflexivity].
Qed.

Lemma join_app (l1 l2 : list string) :
  join (l1 ++ l2) = (join l1 ++ join l2)%string.
Proof.
  induction l1 as [|x l1 IH]; [reflexivity|].
  rewrite <- app_comm_cons, !join_cons, IH. now rewrite append_assoc.
Qed.

End Strings.

(** ** The splitter *)

Section Splitter.

Lemma slice_inner (s : string) (a b : Z) :
  0 <= a -> a <= b -> b <= len s ->
  slice s (Some a) (Some b) = substring (Z.to_nat a) (Z.to_nat (b - a)) s.
Proof.
  intros Ha Hab Hb. unfold slice, clamp_index.
  destruct (Z.ltb_spec a 0); [lia|].
  destruct (Z.ltb_spec b 0); [lia|].
  now rewrite !Z.min_l by lia.
Qed.

Lemma slice_tail (s : string) (r : Z) :
  0 < r -> r <= len s ->
  slice s (Some (- r)) None = substring (Z.to_nat (len s - r)) (Z.to_nat r) s.
Proof.
  intros Hr Hl. unfold slice, clamp_index.
  destruct (Z.ltb_spec (- r) 0); [|lia].
  rewrite Z.max_l by lia. do 2 f_equal; lia.
Qed.

Lemma join_pieces (q : nat) (s : string) (k : nat) :
  join (map (fun i => substring (q * i) q s) (seq 0 k)) = substring 0 (q * k) s.
Proof.
  induction k as [|k IH].
  - rewrite Nat.mul_0_r. now destruct s.
  - rewrite seq_S, map_app, join_app, IH. simpl map.
    rewrite join_cons. unfold join at 1; simpl String.concat.
    rewrite append_empty_r.
    replace (q * S k)%nat with (q * k + q)%nat by lia.
    now rewrite substring_split.
Qed.

Lemma pieces_as_substrings (count : Z) (data : string) :
  0 < count ->
  map (fun z => slice data (Some (len data / count * z))
                           (Some (len data / count * (z + 1))))
      (range count)
  = map (fun i => substring (Z.to_nat (len data / count) * i)
                            (Z.to_nat (len data / count)) data)
        (seq 0 (Z.to_nat count)).
Proof.
  intros Hc. unfold range. rewrite map_map. apply map_ext_in.
  intros i Hi. apply in_seq in Hi.
  assert (Hlen : 0 <= len data) by (unfold len; lia).
  assert (HQ : 0 <= len data / count) by (apply Z.div_pos; lia).
  assert (Hle : count * (len data / count) <= len data)
    by (apply Z.mul_div_le; lia).
  assert (Hi' : 0 <= Z.of_nat i /\ Z.of_nat i + 1 <= count) by lia.
  assert (Hup : len data / count * (Z.of_nat i + 1) <= len data / count * count)
    by (apply Z.mul_le_mono_nonneg_l; lia).
  rewrite slice_inner by nia.
  f_equal.
  - rewrite Z2Nat.inj_mul by lia. now rewrite Nat2Z.id.
  - f_equal. lia.
Qed.

Lemma append_to_last_ok (l : list string) (x : string) :
  l <> [] ->
  exists r, append_to_last l x = Ok r /\
            join r = (join l ++ x)%string /\
            List.length r = List.length l.
Proof.
  induction l as [|y l IH]; intros Hne; [congruence|].
  destruct l as [|z l].
  - exists [(y ++ x)%string]. repeat split.
  - destruct IH as (r & Hr & Hj & Hl); [discriminate|].
    exists (y :: r). repeat split.
    + change (append_to_last (y :: z :: l) x)
        with (rbind (append_to_last (z :: l) x) (fun r => Ok (y :: r))).
      now rewrite Hr.
    + rewrite (join_cons y r), (join_cons y (z :: l)), Hj.
      now rewrite append_assoc.
    + simpl. now rewrite Hl.
Qed.

(** For a positive count the splitter returns [count] pieces whose
    concatenation is the data. *)
Lemma generate_sharded_data_positive (count : Z) (data : string) :
  0 < count ->
  exists parts,
    _generate_sharded_data count data = Ok parts /\
    join parts = data /\
    List.length parts = Z.to_nat count.
Proof.
  intros Hc. unfold _generate_sharded_data, divmod.
  destruct (Z.eqb_spec count 0); [lia|]. unfold rbind.
  rewrite pieces_as_substrings by assumption.
  set (Q := len data / count). set (q := Z.to_nat Q).
  set (c := Z.to_nat count).
  assert (Hlen : 0 <= len data) by (unfold len; lia).
  assert (HQ : 0 <= Q) by (apply Z.div_pos; lia).
  assert (Hdm : len data = count * Q + len data mod count)
    by (apply Z.div_mod; lia).
  assert (Hm : 0 <= len data mod count < count)
    by (apply Z.mod_pos_bound; lia).
  assert (Hqc : Z.of_nat (q * c) = count * Q) by (subst q c; nia).
  destruct (Z.gtb_spec (len data mod count) 0) as [Hr|Hr].
  - destruct (append_to_last_ok
                (map (fun i => substring (q * i) q data) (seq 0 c))
                (slice data (Some (- (len data mod count))) None))
      as (r & Hr1 & Hr2 & Hr3).
    { destruct c eqn:Ec; [subst c; lia | discriminate]. }
    exists r. split; [exact Hr1|]. split.
    + rewrite Hr2, join_pieces, slice_tail by lia.
      replace (Z.to_nat (len data - len data mod count)) with (0 + q * c)%nat by lia.
      rewrite <- substring_split.
      replace (q * c + Z.to_nat (len data mod count))%nat
        with (String.length data) by (unfold len in *; lia).
      apply substring_0_length.
    + rewrite Hr3. now rewrite length_map, length_seq.
  - eexists. split; [reflexivity|]. split.
    + rewrite join_pieces.
      replace (q * c)%nat with (String.length data) by (unfold len in *; lia).
      apply substring_0_length.
    + now rewrite length_map, length_seq.
Qed.

(** C2: for every count > 0 and every non-empty data, the splitter
    returns slices whose concatenation, in order, is exactly the data:
    no byte is lost and none is duplicated. *)
Theorem generate_sharded_data_join (count : Z) (data : string) :
  count > 0 -> data <> "" ->
  exists parts,
    _generate_sharded_data count data = Ok parts /\ join parts = data.
Proof.
  intros Hc _.
  destruct (generate_sharded_data_positive count data) as (parts & H1 & H2 & _);
    [lia|].
  now exists parts.
Qed.

Lemma generate_sharded_data_join_witness :
  exists parts,
    _generate_sharded_data 3 "abcdefgh" = Ok parts /\ join parts = "abcdefgh".
Proof.
  apply (generate_sharded_data_join 3 "abcdefgh"); [lia | discriminate].
Defined.

End Splitter.

(** ** Arguments the splitter does not check *)

Section SplitterArguments.

Lemma append_to_last_snoc (l : list string) (y x : string) :
  append_to_last (l ++ [y]) x = Ok (l ++ [(y ++ x)%string]).
Proof.
  induction l as [|z l IH]; [reflexivity|].
  rewrite <- !app_comm_cons.
  destruct (l ++ [y]) as [|w l'] eqn:E.
  - now destruct l.
  - change (append_to_last (z :: w :: l') x)
      with (rbind (append_to_last (w :: l') x) (fun r => Ok (z :: r))).
    now rewrite IH.
Qed.

Lemma repeat_snoc {A : Type} (a : A) (n : nat) :
  repeat a (S n) = repeat a n ++ [a].
Proof. induction n as [|n IH]; [reflexivity|]. simpl in *. now rewrite <- IH. Qed.

Lemma generate_sharded_data_negative (count : Z) (data : string) :
  count < 0 -> _generate_sharded_data count data = Ok [].
Proof.
  intros Hc. unfold _generate_sharded_data, divmod.
  destruct (Z.eqb_spec count 0); [lia|]. unfold rbind, range.
  replace (Z.to_nat count) with 0%nat by lia.
  pose proof (Z.mod_neg_bound (len data) count Hc).
  destruct (Z.gtb_spec (len data mod count) 0); [lia | reflexivity].
Qed.

Lemma generate_sharded_data_zero (data : string) :
  _generate_sharded_data 0 data = Raise ZeroDivisionError.
Proof. reflexivity. Qed.

Lemma generate_sharded_data_oversized (count : Z) (data : string) :
  count > len data ->
  _generate_sharded_data count data
  = Ok (repeat "" (Z.to_nat count - 1) ++ [data]).
Proof.
  intros Hc.
  assert (Hlen : 0 <= len data) by (unfold len; lia).
  unfold _generate_sharded_data, divmod.
  destruct (Z.eqb_spec count 0); [lia|]. unfold rbind.
  rewrite pieces_as_substrings by lia.
  rewrite Z.div_small, Z.mod_small by lia.
  change (Z.to_nat 0) with 0%nat.
  assert (Hrep : map (fun i => substring (0 * i) 0 data) (seq 0 (Z.to_nat count))
                 = repeat "" (Z.to_nat count - 1) ++ [""]).
  { rewrite <- repeat_snoc.
    replace (S (Z.to_nat count - 1)) with (Z.to_nat count) by lia.
    generalize 0%nat at 3. induction (Z.to_nat count) as [|c IH]; intros i.
    - reflexivity.
    - simpl. rewrite IH. f_equal. now destruct data. }
  rewrite Hrep.
  destruct (Z.gtb_spec (len data) 0) as [Hpos|Hzero].
  - rewrite append_to_last_snoc, slice_tail by lia.
    rewrite Z.sub_diag. change (Z.to_nat 0) with 0%nat.
    unfold len. rewrite Nat2Z.id, substring_0_length. reflexivity.
  - destruct data; [reflexivity | unfold len in *; simpl in *; lia].
Qed.

(** C8, as the code has it: the splitter checks nothing.  A negative
    count gives the empty list, a zero count raises [ZeroDivisionError]
    from [divmod], and a count above [len(data)] gives [count - 1] empty
    slices followed by the whole data. *)
Theorem generate_sharded_data_unguarded (count : Z) (data : string) :
  (count < 0 -> _generate_sharded_data count data = Ok []) /\
  (count = 0 -> _generate_sharded_data count data = Raise ZeroDivisionError) /\
  (count > len data ->
   _generate_sharded_data count data
   = Ok (repeat "" (Z.to_nat count - 1) ++ [data])).
Proof.
  split; [|split].
  - apply generate_sharded_data_negative.
  - intros ->. apply generate_sharded_data_zero.
  - apply generate_sharded_data_oversized.
Qed.

Lemma generate_sharded_data_unguarded_witness :
  _generate_sharded_data (-2) "ab" = Ok [] /\
  _generate_sharded_data 0 "ab" = Raise ZeroDivisionError /\
  _generate_sharded_data 3 "ab" = Ok [""; ""; "ab"].
Proof.
  split; [|split].
  - apply (proj1 (generate_sharded_data_unguarded (-2) "ab")). lia.
  - apply (proj1 (proj2 (generate_sharded_data_unguarded 0 "ab"))). reflexivity.
  - apply (proj2 (proj2 (generate_sharded_data_unguarded 3 "ab"))).
    vm_compute. reflexivity.
Defined.

(** C8 as stated fails: with a count at most zero or above [len(data)]
    the splitter raises no [InvalidArgument] error.  It returns a list
    for 3 and for -2 on two characters, and for 0 the division by zero
    surfaces as [ZeroDivisionError]. *)
Lemma generate_sharded_data_invalid_argument_counterexample :
  (3 > len "ab" /\
   ~ fails_with "InvalidArgument" (_generate_sharded_data 3 "ab", fresh)) /\
  (-2 <= 0 /\
   ~ fails_with "InvalidArgument" (_generate_sharded_data (-2) "ab", fresh)) /\
  (0 <= 0 /\
   ~ fails_with "InvalidArgument" (_generate_sharded_data 0 "ab", fresh) /\
   fails_with "ZeroDivisionError" (_generate_sharded_data 0 "ab", fresh)).
Proof.
  split; [|split].
  - split; [vm_compute; reflexivity|].
    intros (e & He & _). discriminate He.
  - split; [lia|].
    intros (e & He & _). discriminate He.
  - split; [lia|]. split.
    + intros (e & He & Hn). simpl in He. injection He as <-. discriminate.
    + exists ZeroDivisionError. split; reflexivity.
Qed.

End SplitterArguments.

(** ** [str] and [int] *)

Section Decimal.

Lemma all_chars_append (p : ascii -> bool) (s t : string) :
  all_chars p (s ++ t) = all_chars p s && all_chars p t.
Proof.
  induction s as [|c s IH]; simpl; [reflexivity|].
  now rewrite IH, andb_assoc.
Qed.

Lemma all_chars_weaken (p q : ascii -> bool) (s : string) :
  (forall c, p c = true -> q c = true) ->
  all_chars p s = true -> all_chars q s = true.
Proof.
  intros Hpq. induction s as [|c s IH]; simpl; [reflexivity|].
  intros H. apply andb_true_iff in H as [H1 H2].
  now rewrite (Hpq _ H1), IH.
Qed.

Lemma digits_of_uint (u : Decimal.uint) :
  all_chars is_digit (NilEmpty.string_of_uint u) = true.
Proof. induction u; simpl; auto. Qed.

Lemma digits_of_str (n : nat) : all_chars is_digit (str (Z.of_nat n)) = true.
Proof.
  unfold str. destruct (Z.of_nat n) eqn:E; [reflexivity | | lia].
  simpl. unfold NilZero.string_of_uint.
  destruct (Pos.to_uint p); [reflexivity | apply digits_of_uint ..].
Qed.

Lemma no_dash_not_in (s : string) :
  all_chars (fun c => negb (Ascii.eqb c "-")) s = true -> str_in "-" s = false.
Proof.
  induction s as [|c s IH]; cbn [all_chars str_in prefix]; [reflexivity|].
  intros H. apply andb_true_iff in H as [H1 H2].
  rewrite (IH H2), orb_false_r.
  destruct (ascii_dec "-" c) as [<-|]; [discriminate H1 | reflexivity].
Qed.

Lemma digit_not_dash (c : ascii) :
  is_digit c = true -> negb (Ascii.eqb c "-") = true.
Proof.
  destruct (Ascii.eqb_spec c "-") as [->|]; [discriminate | reflexivity].
Qed.

(** The file of a shard has no dash in its name. *)
Lemma shard_file_no_dash (n : nat) :
  str_in "-" (str (Z.of_nat n) ++ ".txt") = false.
Proof.
  apply no_dash_not_in. rewrite all_chars_append.
  rewrite (all_chars_weaken _ _ _ digit_not_dash (digits_of_str n)).
  reflexivity.
Qed.

Lemma string_of_int_no_plus (d : Decimal.int) (s : string) :
  NilZero.string_of_int d <> String "+" s.
Proof. destruct d as [u|u]; destruct u; discriminate. Qed.

Lemma int_without_plus (s : string) :
  (forall s', s <> String "+" s') ->
  int s = match option_map Z.of_int (NilZero.int_of_string s) with
          | Some z => Ok z
          | None => Raise ValueError
          end.
Proof.
  intros H. unfold int.
  destruct s as [|[[|] [|] [|] [|] [|] [|] [|] [|]] s']; try reflexivity.
  now destruct (H s').
Qed.

(** [int(str(z)) == z] *)
Lemma int_str (z : Z) : int (str z) = Ok z.
Proof.
  unfold str. rewrite int_without_plus by (intros s'; apply string_of_int_no_plus).
  rewrite NilZero.isi.
  - simpl. now rewrite DecimalZ.of_to.
  - destruct z; simpl; try discriminate.
    intros [= H]. now apply DecimalPos.Unsigned.to_uint_nonnil in H.
  - destruct z; simpl; try discriminate.
    intros [= H]. now apply DecimalPos.Unsigned.to_uint_nonnil in H.
Qed.

Lemma str_inj (a b : Z) : str a = str b -> a = b.
Proof.
  intros H. apply (f_equal int) in H. rewrite !int_str in H. now injection H.
Qed.

Lemma shard_file_inj (a b : Z) :
  (str a ++ ".txt")%string = (str b ++ ".txt")%string -> a = b.
Proof. intros H. apply str_inj. now apply append_inj_l in H. Qed.

End Decimal.

(** ** Association lists *)

Section AssocFacts.
Context {V : Type}.
Implicit Types (d kvs : list (string * V)) (k : string) (v : V).

Lemma assoc_get_set_same k v d : assoc_get k (assoc_set k v d) = Some v.
Proof.
  induction d as [|[k' v'] d IH]; simpl.
  - now rewrite String.eqb_refl.
  - destruct (String.eqb_spec k' k); simpl.
    + now rewrite String.eqb_refl.
    + destruct (String.eqb_spec k' k); [contradiction | exact IH].
Qed.

Lemma assoc_get_set_other k k' v d :
  k <> k' -> assoc_get k' (assoc_set k v d) = assoc_get k' d.
Proof.
  intros Hne. induction d as [|[k0 v0] d IH]; simpl.
  - destruct (String.eqb_spec k k'); [contradiction | reflexivity].
  - destruct (String.eqb_spec k0 k) as [->|]; simpl.
    + destruct (String.eqb_spec k k'); [contradiction | reflexivity].
    + destruct (String.eqb_spec k0 k'); [reflexivity | exact IH].
Qed.

Lemma assoc_set_fresh k v d :
  ~ In k (map fst d) -> assoc_set k v d = d ++ [(k, v)].
Proof.
  induction d as [|[k' v'] d IH]; simpl; intros Hn; [reflexivity|].
  destruct (String.eqb_spec k' k); [tauto|].
  f_equal. apply IH. tauto.
Qed.

Lemma keys_assoc_set_present k v d :
  In k (map fst d) -> map fst (assoc_set k v d) = map fst d.
Proof.
  induction d as [|[k' v'] d IH]; simpl; intros Hin; [contradiction|].
  destruct (String.eqb_spec k' k) as [->|Hne]; simpl; [reflexivity|].
  f_equal. apply IH. destruct Hin; [contradiction | assumption].
Qed.

Lemma assoc_set_all_app kvs1 kvs2 d :
  assoc_set_all (kvs1 ++ kvs2) d = assoc_set_all kvs2 (assoc_set_all kvs1 d).
Proof.
  revert d; induction kvs1 as [|[k v] kvs1 IH]; intros d; simpl;
    [reflexivity | apply IH].
Qed.

Lemma assoc_get_set_all_notin k kvs d :
  ~ In k (map fst kvs) -> assoc_get k (assoc_set_all kvs d) = assoc_get k d.
Proof.
  revert d; induction kvs as [|[k' v'] kvs IH]; intros d Hn; simpl in *;
    [reflexivity|].
  rewrite IH by tauto. apply assoc_get_set_other. tauto.
Qed.

Lemma assoc_get_set_all_in k v kvs d :
  NoDup (map fst kvs) -> In (k, v) kvs ->
  assoc_get k (assoc_set_all kvs d) = Some v.
Proof.
  revert d; induction kvs as [|[k' v'] kvs IH]; intros d Hnd Hin; simpl in *;
    [contradiction|].
  inversion Hnd as [|? ? Hnotin Hnd']; subst.
  destruct Hin as [[= -> ->]|Hin].
  - rewrite assoc_get_set_all_notin by assumption. apply assoc_get_set_same.
  - now apply IH.
Qed.

Lemma assoc_set_all_fresh kvs d :
  NoDup (map fst kvs) ->
  (forall k, In k (map fst kvs) -> ~ In k (map fst d)) ->
  assoc_set_all kvs d = d ++ kvs.
Proof.
  revert d; induction kvs as [|[k v] kvs IH]; intros d Hnd Hfresh; simpl in *.
  - now rewrite List.app_nil_r.
  - inversion Hnd as [|? ? Hnotin Hnd']; subst.
    rewrite assoc_set_fresh by (apply Hfresh; now left).
    rewrite IH; [now rewrite <- List.app_assoc | assumption |].
    intros k' Hk'. rewrite map_app, in_app_iff. simpl.
    intros [H|[<-|[]]]; [|contradiction].
    now apply (Hfresh k'); [right|].
Qed.

Lemma keys_assoc_set_all_present kvs d :
  (forall k, In k (map fst kvs) -> In k (map fst d)) ->
  map fst (assoc_set_all kvs d) = map fst d.
Proof.
  revert d; induction kvs as [|[k v] kvs IH]; intros d Hin; simpl in *;
    [reflexivity|].
  rewrite IH.
  - apply keys_assoc_set_present. apply Hin. now left.
  - intros k' Hk'. rewrite keys_assoc_set_present by (apply Hin; now left).
    apply Hin. now right.
Qed.

(** Keys already present keep their place and the new ones follow. *)
Lemma keys_assoc_set_all_extend kvs d (ks ks' : list string) :
  map fst d = ks -> map fst kvs = ks ++ ks' ->
  NoDup ks' -> (forall k, In k ks' -> ~ In k ks) ->
  map fst (assoc_set_all kvs d) = ks ++ ks'.
Proof.
  intros Hd Hk Hnd Hdisj.
  assert (H1 : map fst (firstn (List.length ks) kvs) = ks).
  { rewrite <- firstn_map, Hk, firstn_app, Nat.sub_diag, firstn_all.
    apply List.app_nil_r. }
  assert (H2 : map fst (skipn (List.length ks) kvs) = ks').
  { rewrite <- skipn_map, Hk, skipn_app, skipn_all, Nat.sub_diag.
    reflexivity. }
  assert (Hkeep : map fst (assoc_set_all (firstn (List.length ks) kvs) d) = ks).
  { rewrite keys_assoc_set_all_present; [exact Hd|].
    intros k. now rewrite H1, Hd. }
  rewrite <- (firstn_skipn (List.length ks) kvs).
  rewrite assoc_set_all_app, assoc_set_all_fresh.
  - now rewrite map_app, H2, Hkeep.
  - now rewrite H2.
  - intros k. rewrite H2, Hkeep. apply Hdisj.
Qed.

End AssocFacts.

(** ** Text mode *)

Section TextMode.

Lemma universal_newlines_no_cr_both (s : string) :
  all_chars (fun c => negb (Ascii.eqb c CR)) (universal_newlines s) = true /\
  forall c,
    all_chars (fun c => negb (Ascii.eqb c CR)) (universal_newlines (String c s))
    = true.
Proof.
  induction s as [|a s [IH1 IH2]].
  - split; [reflexivity|]. intros c. cbn [universal_newlines].
    destruct (Ascii.eqb c CR) eqn:Hc; cbn [all_chars]; [reflexivity|].
    now rewrite Hc.
  - split; [apply IH2|]. intros c.
    change (universal_newlines (String c (String a s)))
      with (if Ascii.eqb c CR
            then if Ascii.eqb a LF
                 then String LF (universal_newlines s)
                 else String LF (universal_newlines (String a s))
            else String c (universal_newlines (String a s))).
    destruct (Ascii.eqb c CR) eqn:Hc.
    + destruct (Ascii.eqb a LF); cbn [all_chars];
        [exact IH1 | exact (IH2 a)].
    + cbn [all_chars]. rewrite Hc. exact (IH2 a).
Qed.

(** What is read in text mode has no carriage return. *)
Lemma universal_newlines_no_cr (s : string) :
  all_chars (fun c => negb (Ascii.eqb c CR)) (universal_newlines s) = true.
Proof. apply universal_newlines_no_cr_both. Qed.

(** Text without a carriage return is read back as it is. *)
Lemma universal_newlines_id (s : string) :
  all_chars (fun c => negb (Ascii.eqb c CR)) s = true ->
  universal_newlines s = s.
Proof.
  induction s as [|c s IH]; [reflexivity|].
  cbn [all_chars]. intros H. apply andb_true_iff in H as [Hc Hs].
  cbn [universal_newlines].
  destruct (Ascii.eqb c CR); [discriminate Hc | now rewrite IH].
Qed.

Lemma all_chars_join (p : ascii -> bool) (l : list string) :
  all_chars p (join l) = forallb (all_chars p) l.
Proof.
  induction l as [|x l IH]; [reflexivity|].
  now rewrite join_cons, all_chars_append, IH.
Qed.

(** Pieces whose concatenation has no carriage return are read back as
    they are. *)
Lemma join_translated (parts : list string) :
  all_chars (fun c => negb (Ascii.eqb c CR)) (join parts) = true ->
  map universal_newlines parts = parts.
Proof.
  rewrite all_chars_join. induction parts as [|x parts IH]; [reflexivity|].
  cbn [forallb map]. intros H. apply andb_true_iff in H as [Hx Hl].
  now rewrite universal_newlines_id, IH.
Qed.

(** ['\r' not in s], character by character. *)
Lemma str_in_char_false (c : ascii) (s : string) :
  str_in (String c "") s = false ->
  all_chars (fun x => negb (Ascii.eqb x c)) s = true.
Proof.
  induction s as [|x s IH]; [reflexivity|].
  change (str_in (String c "") (String x s))
    with (prefix (String c "") (String x s) || str_in (String c "") s).
  intros H. apply orb_false_iff in H as [H1 H2].
  cbn [all_chars]. rewrite (IH H2), andb_true_r.
  cbn [prefix] in H1. destruct (ascii_dec c x) as [<-|Hne].
  - now destruct s.
  - destruct (Ascii.eqb_spec x c); [congruence | reflexivity].
Qed.

Lemma read_text_run (name content : string) (fs : directory) (st : state) :
  data_dir st = Some fs ->
  assoc_get name fs = Some content ->
  read_text name st = (Ok (universal_newlines content), st).
Proof.
  intros Hd Hc. unfold read_text, bind, read_file, ret. now rewrite Hd, Hc.
Qed.

End TextMode.

(** ** Writing and reading the shards *)

Section Shards.

Lemma _write_shard_run (num : Z) (data : string) (st : state) :
  _write_shard num data st
  = (Ok tt, after_write_shards [(num, data)] st).
Proof.
  unfold _write_shard, bind, mkdir_if_missing, write_file, modify.
  destruct st as [m f [fs|] o]; reflexivity.
Qed.

Lemma write_shards_run (nds : list (Z * string)) (st : state) :
  for_each nds (fun '(num, d) => _write_shard num d) st
  = (Ok tt, after_write_shards nds st).
Proof.
  revert st; induction nds as [|[num d] nds IH]; intros st; [reflexivity|].
  cbn [for_each]. unfold bind at 1. rewrite _write_shard_run, IH.
  destruct nds as [|nd nds]; [reflexivity|].
  destruct st as [m f [fs|] o]; reflexivity.
Qed.

Lemma NoDup_map_inj {A B : Type} (f : A -> B) (l : list A) :
  (forall a b, f a = f b -> a = b) -> NoDup l -> NoDup (map f l).
Proof.
  intros Hinj. induction 1 as [|a l Hnotin Hnd IH]; simpl; constructor;
    [|exact IH].
  intros Hin. apply in_map_iff in Hin as (b & Hb & Hinb).
  apply Hinj in Hb. now subst.
Qed.

Lemma shard_keys_S (n : nat) :
  shard_keys (S n) = shard_keys n ++ [str (Z.of_nat n)].
Proof. unfold shard_keys. now rewrite seq_S, map_app. Qed.

Lemma shard_keys_NoDup (n : nat) : NoDup (shard_keys n).
Proof.
  apply NoDup_map_inj; [|apply seq_NoDup].
  intros a b H. apply str_inj in H. lia.
Qed.

Lemma shard_keys_fresh (n : nat) : ~ In (str (Z.of_nat n)) (shard_keys n).
Proof.
  unfold shard_keys. rewrite in_map_iff. intros (i & Hi & Hin).
  apply str_inj in Hi. apply in_seq in Hin. lia.
Qed.

Lemma keys_shard_entries (parts : list string) (i : nat) :
  map fst (shard_entries (enumerate_from (Z.of_nat i) parts))
  = map (fun j => str (Z.of_nat j)) (seq i (List.length parts)).
Proof.
  revert i; induction parts as [|d parts IH]; intros i; [reflexivity|].
  cbn [enumerate_from shard_entries map fst List.length seq]. f_equal.
  replace (Z.of_nat i + 1) with (Z.of_nat (S i)) by lia. apply IH.
Qed.

Lemma names_shard_files (parts : list string) (i : nat) :
  map fst (shard_files (enumerate_from (Z.of_nat i) parts))
  = map (fun j => (str (Z.of_nat j) ++ ".txt")%string) (seq i (List.length parts)).
Proof.
  revert i; induction parts as [|d parts IH]; intros i; [reflexivity|].
  cbn [enumerate_from shard_files map fst List.length seq]. f_equal.
  replace (Z.of_nat i + 1) with (Z.of_nat (S i)) by lia. apply IH.
Qed.

Lemma names_shard_files_NoDup (parts : list string) (i : nat) :
  NoDup (map fst (shard_files (enumerate_from (Z.of_nat i) parts))).
Proof.
  rewrite names_shard_files. apply NoDup_map_inj; [|apply seq_NoDup].
  intros a b H. apply shard_file_inj in H. lia.
Qed.

Lemma keys_enumerate (parts : list string) :
  map fst (shard_entries (enumerate parts)) = shard_keys (List.length parts).
Proof. exact (keys_shard_entries parts 0). Qed.

Lemma names_enumerate (parts : list string) :
  map fst (shard_files (enumerate parts))
  = map (fun j => (str (Z.of_nat j) ++ ".txt")%string) (seq 0 (List.length parts)).
Proof. exact (names_shard_files parts 0). Qed.

Lemma names_enumerate_NoDup (parts : list string) :
  NoDup (map fst (shard_files (enumerate parts))).
Proof. exact (names_shard_files_NoDup parts 0). Qed.

(** Each piece is stored under the file of its index. *)
Lemma shard_files_cover (parts : list string) (i : nat) :
  Forall2 (fun k d =>
             In ((k ++ ".txt")%string, d)
                (shard_files (enumerate_from (Z.of_nat i) parts)))
          (map (fun j => str (Z.of_nat j)) (seq i (List.length parts))) parts.
Proof.
  revert i; induction parts as [|d parts IH]; intros i; [constructor|].
  cbn [enumerate_from shard_files map List.length seq]. constructor.
  - now left.
  - replace (Z.of_nat i + 1) with (Z.of_nat (S i)) by lia.
    eapply Forall2_impl; [|apply IH].
    intros k d' H. now right.
Qed.

Lemma read_shards_run (keys ds : list string) (fs : directory) (st : state) :
  data_dir st = Some fs ->
  Forall2 (fun k d => assoc_get (k ++ ".txt") fs = Some d) keys ds ->
  read_shards keys st = (Ok (map universal_newlines ds), st).
Proof.
  intros Hfs. induction 1 as [|k d keys ds Hk _ IH]; [reflexivity|].
  cbn [read_shards]. unfold bind at 1.
  rewrite (read_text_run _ d fs st Hfs Hk). unfold bind at 1. now rewrite IH.
Qed.

(** Reading needs no directory when the mapping has no key. *)
Lemma read_shards_nil (st : state) : read_shards [] st = (Ok [], st).
Proof. reflexivity. Qed.

(** Once the pieces are written, the files named by the ids
    [0 .. len(parts) - 1] hold them, whatever else the directory had. *)
Lemma load_written_shards (parts : list string) (fs0 : directory) (st : state) :
  map fst (mapping st) = shard_keys (List.length parts) ->
  data_dir st = Some (assoc_set_all (shard_files (enumerate parts)) fs0) ->
  load_data_from_shards st = (Ok (join (map universal_newlines parts)), st).
Proof.
  intros Hkeys Hdir. unfold load_data_from_shards, bind, gets, ret.
  rewrite Hkeys.
  erewrite read_shards_run; [reflexivity | exact Hdir |].
  eapply Forall2_impl; [|apply (shard_files_cover parts 0)].
  intros k d' Hin. apply assoc_get_set_all_in; [|exact Hin].
  apply (names_shard_files_NoDup parts 0).
Qed.

(** Pieces without a carriage return are loaded as they were written. *)
Lemma load_written_clean (parts : list string) (fs0 : directory) (st : state) :
  map fst (mapping st) = shard_keys (List.length parts) ->
  data_dir st = Some (assoc_set_all (shard_files (enumerate parts)) fs0) ->
  all_chars (fun c => negb (Ascii.eqb c CR)) (join parts) = true ->
  load_data_from_shards st = (Ok (join parts), st).
Proof.
  intros Hkeys Hdir Hcr.
  rewrite (load_written_shards parts fs0 st Hkeys Hdir).
  now rewrite (join_translated parts Hcr).
Qed.

Lemma data_dir_after_write_shards (nd : Z * string) (nds : list (Z * string))
      (st : state) :
  data_dir (after_write_shards (nd :: nds) st)
  = Some (assoc_set_all (shard_files (nd :: nds))
            (match data_dir st with Some fs => fs | None => [] end)).
Proof. reflexivity. Qed.

(** From an empty mapping the loop leaves one entry per piece. *)
Lemma mapping_after_write_shards (parts : list string) (st : state) :
  mapping st = [] ->
  mapping (after_write_shards (enumerate parts) st)
  = shard_entries (enumerate parts).
Proof.
  intros Hm. destruct parts as [|d parts]; [exact Hm|].
  unfold after_write_shards, enumerate.
  cbn [enumerate_from mapping]. rewrite Hm.
  change ((0, d) :: enumerate_from (0 + 1) parts)
    with (enumerate_from (Z.of_nat 0) (d :: parts)).
  rewrite assoc_set_all_fresh; [reflexivity | | intros k _ []].
  rewrite keys_shard_entries. apply (shard_keys_NoDup (List.length (d :: parts))).
Qed.

End Shards.

(** ** [build_shards] *)

Section BuildShards.

Lemma build_shards_run (count : Z) (data : string) (parts : list string)
      (st : state) :
  mapping st = [] ->
  _generate_sharded_data count data = Ok parts ->
  build_shards count data st
  = (Ok None,
     let st' := after_write_shards (enumerate parts) st in
     set_mapfile (Some (mapping st')) st').
Proof.
  intros Hm Hgen. unfold build_shards, bind at 1, gets. rewrite Hm.
  unfold bind at 1, lift. rewrite Hgen.
  unfold bind at 1. rewrite write_shards_run. reflexivity.
Qed.

Lemma build_shards_raise (count : Z) (data : string) (e : exn) (st : state) :
  mapping st = [] ->
  _generate_sharded_data count data = Raise e ->
  build_shards count data st = (Raise e, st).
Proof.
  intros Hm Hgen. unfold build_shards, bind at 1, gets. rewrite Hm.
  unfold bind at 1, lift. now rewrite Hgen.
Qed.

Lemma build_shards_guard (count : Z) (data : string) (st : state) :
  mapping st <> [] ->
  build_shards count data st = (Ok (Some already_sharded), st).
Proof.
  intros Hm. unfold build_shards, bind, gets.
  destruct (mapping st); [contradiction | reflexivity].
Qed.




(** C6, as the code has it: with a non-empty mapping [build_shards]
    raises nothing; it returns the message string and leaves the mapping,
    the mapping file and every stored file as they were. *)
Theorem build_shards_already_sharded (count : Z) (data : string) (st : state) :
  mapping st <> [] ->
  build_shards count data st = (Ok (Some already_sharded), st).
Proof.
  intros Hm. unfold build_shards, bind, gets.
  destruct (mapping st); [contradiction | reflexivity].
Qed.

Lemma build_shards_already_sharded_witness :
  mapping one_shard <> [] /\
  build_shards 2 "xy" one_shard = (Ok (Some already_sharded), one_shard).
Proof.
  split; [discriminate|].
  apply (build_shards_already_sharded 2 "xy" one_shard). discriminate.
Defined.

(** C6 as stated fails: on the one-shard state, whose mapping is not
    empty, [build_shards] does not fail with an [AlreadySharded] error;
    it returns normally, and what it returns is a string. *)
Lemma build_shards_already_sharded_counterexample :
  mapping one_shard <> [] /\
  ~ fails_with "AlreadySharded" (build_shards 2 "xy" one_shard) /\
  fst (build_shards 2 "xy" one_shard)
  = Ok (Some "Cannot build shard setup -- sharding already exists.").
Proof.
  split; [discriminate|]. split; [|reflexivity].
  intros (e & He & _). discriminate He.
Qed.

End BuildShards.

(** ** The mapping entries written by [build_shards] *)

Section MappingEntries.

Lemma assoc_get_in {V : Type} (k : string) (v : V) (d : list (string * V)) :
  NoDup (map fst d) -> In (k, v) d -> assoc_get k d = Some v.
Proof.
  induction d as [|[k' v'] d IH]; simpl; intros Hnd Hin; [contradiction|].
  inversion Hnd as [|? ? Hnotin Hnd']; subst.
  destruct Hin as [[= -> ->]|Hin].
  - now rewrite String.eqb_refl.
  - destruct (String.eqb_spec k' k) as [->|]; [|now apply IH].
    destruct Hnotin. apply in_map_iff. now exists (k, v).
Qed.

Lemma enumerate_from_nth (parts : list string) (k i : nat) (d : string) :
  nth_error parts i = Some d ->
  In (Z.of_nat (k + i), d) (enumerate_from (Z.of_nat k) parts).
Proof.
  revert k i; induction parts as [|p parts IH]; intros k [|i] H;
    try discriminate; cbn [enumerate_from nth_error] in *.
  - injection H as ->. left. f_equal. lia.
  - right. replace (Z.of_nat k + 1) with (Z.of_nat (S k)) by lia.
    replace (k + S i)%nat with (S k + i)%nat by lia. now apply IH.
Qed.

(** C9: after a successful [build_shards(count, data)] the mapping entry
    of the shard at index [i] has [start = i * len(shard_i)] and
    [end = (i + 1) * len(shard_i)], where [shard_i] is the piece the
    splitter produced at index [i], which is the content stored in that
    shard's file: the length is the shard's own, not an offset in the
    data. *)
Theorem build_shards_mapping_entries
        (count : Z) (data : string) (st st' : state) :
  build_shards count data st = (Ok None, st') ->
  exists parts,
    _generate_sharded_data count data = Ok parts /\
    forall (i : nat) (shard : string),
      nth_error parts i = Some shard ->
      assoc_get (str (Z.of_nat i)) (mapping st')
      = Some {| start := Z.of_nat i * len shard;
                end_ := (Z.of_nat i + 1) * len shard |} /\
      read_file (str (Z.of_nat i) ++ ".txt") st' = (Ok shard, st').
Proof.
  intros Hrun.
  destruct (mapping st) as [|kv m] eqn:Hm.
  2:{ rewrite build_shards_guard in Hrun by (rewrite Hm; discriminate).
      discriminate Hrun. }
  destruct (_generate_sharded_data count data) as [parts|e] eqn:Hgen.
  2:{ rewrite (build_shards_raise _ _ _ _ Hm Hgen) in Hrun. discriminate Hrun. }
  rewrite (build_shards_run _ _ _ _ Hm Hgen) in Hrun.
  injection Hrun as <-. exists parts. split; [reflexivity|].
  intros i shard Hnth. cbv zeta.
  pose proof (enumerate_from_nth parts 0 i shard Hnth) as Hin.
  change (In (Z.of_nat i, shard) (enumerate parts)) in Hin.
  split.
  - cbn [mapping set_mapfile].
    rewrite mapping_after_write_shards by exact Hm.
    apply assoc_get_in.
    + rewrite keys_enumerate. apply shard_keys_NoDup.
    + unfold shard_entries. apply in_map_iff.
      now exists (Z.of_nat i, shard).
  - assert (Hdir : data_dir (after_write_shards (enumerate parts) st)
                   = Some (assoc_set_all (shard_files (enumerate parts))
                             (match data_dir st with
                              | Some fs => fs
                              | None => []
                              end)))
      by (destruct (enumerate parts); [contradiction | reflexivity]).
    unfold read_file. cbn [data_dir set_mapfile]. rewrite Hdir.
    rewrite (assoc_get_set_all_in _ shard); [reflexivity | |].
    + apply names_enumerate_NoDup.
    + unfold shard_files. apply in_map_iff.
      now exists (Z.of_nat i, shard).
Qed.

Lemma build_shards_mapping_entries_witness :
  exists parts,
    _generate_sharded_data 3 "abcdefgh" = Ok parts /\
    forall (i : nat) (shard : string),
      nth_error parts i = Some shard ->
      assoc_get (str (Z.of_nat i))
                (mapping (exec (build_shards 3 "abcdefgh") fresh))
      = Some {| start := Z.of_nat i * len shard;
                end_ := (Z.of_nat i + 1) * len shard |} /\
      read_file (str (Z.of_nat i) ++ ".txt")
                (exec (build_shards 3 "abcdefgh") fresh)
      = (Ok shard, exec (build_shards 3 "abcdefgh") fresh).
Proof.
  apply (build_shards_mapping_entries 3 "abcdefgh" fresh). reflexivity.
Defined.

End MappingEntries.

(** ** Built states *)

Section BuiltStates.

Lemma ints_iota (i n : nat) :
  ints (map (fun j => str (Z.of_nat j)) (seq i n)) = Ok (map Z.of_nat (seq i n)).
Proof.
  revert i; induction n as [|n IH]; intros i; [reflexivity|].
  cbn [seq map ints]. rewrite int_str. cbn [rbind]. now rewrite IH.
Qed.

Lemma fold_max_iota (i n : nat) :
  fold_left Z.max (map Z.of_nat (seq (S i) n)) (Z.of_nat i) = Z.of_nat (i + n).
Proof.
  revert i; induction n as [|n IH]; intros i.
  - cbn [seq map fold_left]. f_equal. lia.
  - cbn [seq map fold_left]. rewrite Z.max_r by lia. rewrite IH. f_equal. lia.
Qed.

Lemma ints_shard_keys (n : nat) :
  ints (shard_keys n) = Ok (map Z.of_nat (seq 0 n)).
Proof. apply ints_iota. Qed.

(** [max(keys)] on the ids of [n + 1] shards is [n]. *)
Lemma max_int_iota (n : nat) :
  max_int (map Z.of_nat (seq 0 (S n))) = Ok (Z.of_nat n).
Proof. cbn [seq map max_int]. now rewrite (fold_max_iota 0 n). Qed.

Lemma files_present (keys : list string) (fs : directory) :
  (forall k, In k keys -> assoc_get (k ++ ".txt") fs <> None) ->
  exists ds, Forall2 (fun k d => assoc_get (k ++ ".txt") fs = Some d) keys ds.
Proof.
  induction keys as [|k keys IH]; intros H.
  - exists []. constructor.
  - destruct IH as (ds & Hds); [intros k' Hk'; apply H; now right|].
    destruct (assoc_get (k ++ ".txt") fs) as [d|] eqn:Hk.
    + exists (d :: ds). now constructor.
    + destruct (H k); [now left | exact Hk].
Qed.

(** In a built state every shard can be read. *)
Lemma built_load (n : nat) (st : state) :
  built n st -> exists data, load_data_from_shards st = (Ok data, st).
Proof.
  intros (fs & _ & Hkeys & Hdir & Hfiles).
  destruct (files_present _ _ Hfiles) as (ds & Hds).
  exists (join (map universal_newlines ds)).
  unfold load_data_from_shards, bind, gets, ret.
  rewrite Hkeys. now rewrite (read_shards_run _ _ _ _ Hdir Hds).
Qed.

(** What [load_data_from_shards] returns has no carriage return. *)
Lemma load_no_cr (data : string) (st st' : state) :
  load_data_from_shards st = (Ok data, st') ->
  all_chars (fun c => negb (Ascii.eqb c CR)) data = true.
Proof.
  unfold load_data_from_shards, bind, gets, ret.
  assert (H : forall keys s r s',
             read_shards keys s = (Ok r, s') ->
             forallb (all_chars (fun c => negb (Ascii.eqb c CR))) r = true).
  { induction keys as [|k keys IH]; intros s r s' E.
    - injection E as <- _. reflexivity.
    - cbn [read_shards] in E. unfold bind at 1 in E.
      unfold read_text, bind, ret in E.
      destruct (read_file (k ++ ".txt") s) as [[c|e] s1]; [|discriminate E].
      destruct (read_shards keys s1) as [[r1|e] s2] eqn:E1; [|discriminate E].
      injection E as <- _. cbn [forallb].
      now rewrite universal_newlines_no_cr, (IH _ _ _ E1). }
  destruct (read_shards (map fst (mapping st)) st) as [[r|e] s1] eqn:E;
    [|discriminate].
  intros [= <- _]. rewrite all_chars_join. exact (H _ _ _ _ E).
Qed.

Lemma Forall2_exists_l {A B : Type} (R : A -> B -> Prop)
      (l : list A) (l' : list B) (a : A) :
  Forall2 R l l' -> In a l -> exists b, R a b.
Proof.
  induction 1 as [|x y l l' HR _ IH]; intros Hin; [contradiction|].
  destruct Hin as [<-|Hin]; [now exists y | now apply IH].
Qed.

(** A state whose directory received the pieces and whose mapping has
    their ids is built. *)
Lemma written_shards_built (parts : list string) (fs0 : directory) (st : state) :
  mapfile st = Some (mapping st) ->
  map fst (mapping st) = shard_keys (List.length parts) ->
  data_dir st = Some (assoc_set_all (shard_files (enumerate parts)) fs0) ->
  built (List.length parts) st.
Proof.
  intros Hfile Hkeys Hdir. eexists. repeat split; try eassumption.
  intros k Hk.
  destruct (Forall2_exists_l _ _ _ k (shard_files_cover parts 0) Hk) as (d & Hin).
  rewrite (assoc_get_set_all_in _ d); [discriminate | | exact Hin].
  apply names_enumerate_NoDup.
Qed.

End BuiltStates.

(** ** [add_shard] *)

Section AddShard.

Lemma add_shard_run (m : nat) (data : string) (parts : list string) (st : state) :
  built (S m) st ->
  load_data_from_shards st = (Ok data, st) ->
  _generate_sharded_data (Z.of_nat m + 2) data = Ok parts ->
  add_shard st
  = (Ok tt,
     let st' := after_write_shards (enumerate parts) st in
     set_mapfile (Some (mapping st')) st').
Proof.
  intros (fs & Hfile & Hkeys & Hdir & _) Hload Hgen.
  destruct st as [mp f d o]. cbn [mapping mapfile data_dir] in *. subst f d.
  unfold add_shard.
  unfold bind at 1, load_map, gets. cbn [mapfile].
  unfold bind at 1, modify, set_mapping. cbn [mapfile data_dir stdout].
  unfold bind at 1. rewrite Hload.
  unfold bind at 1, gets. cbn [mapping].
  unfold bind at 1, lift. rewrite Hkeys, ints_shard_keys.
  unfold bind at 1. rewrite max_int_iota.
  unfold bind at 1. rewrite int_str.
  unfold bind at 1. rewrite Hgen.
  unfold bind at 1. rewrite write_shards_run.
  reflexivity.
Qed.

Lemma add_shard_rebalance (m : nat) (st : state) :
  built (S m) st ->
  exists data st',
    load_data_from_shards st = (Ok data, st) /\
    add_shard st = (Ok tt, st') /\
    built (S (S m)) st' /\
    load_data_from_shards st' = (Ok data, st').
Proof.
  intros Hb. destruct (built_load _ _ Hb) as (data & Hload).
  destruct (generate_sharded_data_positive (Z.of_nat m + 2) data)
    as (parts & Hgen & Hjoin & Hlen); [lia|].
  replace (Z.to_nat (Z.of_nat m + 2)) with (S (S m)) in Hlen by lia.
  exists data. eexists. split; [exact Hload|].
  split; [apply (add_shard_run m data parts st Hb Hload Hgen)|].
  cbv zeta. destruct Hb as (fs & Hfile & Hkeys & Hdir & _).
  assert (Hkeys' : map fst (mapping (after_write_shards (enumerate parts) st))
                   = shard_keys (S (S m))).
  { destruct parts as [|d parts]; [discriminate Hlen|].
    unfold enumerate. cbn [enumerate_from after_write_shards mapping].
    change ((0, d) :: enumerate_from (0 + 1) parts) with (enumerate (d :: parts)).
    rewrite (shard_keys_S (S m)).
    apply keys_assoc_set_all_extend.
    - exact Hkeys.
    - now rewrite keys_enumerate, Hlen, shard_keys_S.
    - repeat constructor. intros [].
    - intros k [<-|[]]. apply shard_keys_fresh. }
  assert (Hdir' : data_dir (after_write_shards (enumerate parts) st)
                  = Some (assoc_set_all (shard_files (enumerate parts)) fs)).
  { destruct parts as [|d parts]; [discriminate Hlen|].
    unfold enumerate. cbn [enumerate_from].
    now rewrite data_dir_after_write_shards, Hdir. }
  split.
  - rewrite <- Hlen. eapply written_shards_built.
    + reflexivity.
    + cbn [mapping set_mapfile]. now rewrite Hlen.
    + exact Hdir'.
  - rewrite <- Hjoin at 1. eapply load_written_clean.
    + cbn [mapping set_mapfile]. now rewrite Hlen.
    + exact Hdir'.
    + rewrite Hjoin. exact (load_no_cr _ _ _ Hload).
Qed.

(** On an empty mapping file (or none) [add_shard] stops at [max(keys)]
    with a [ValueError]; only [self.mapping] has been reloaded. *)
Lemma add_shard_empty (st : state) :
  mapfile st = None \/ mapfile st = Some [] ->
  add_shard st = (Raise ValueError, set_mapping [] st).
Proof.
  intros H. unfold add_shard, bind at 1, load_map, gets.
  destruct H as [-> | ->]; reflexivity.
Qed.

End AddShard.

Section AddShardClaim.

Lemma two_shards_replicated_built : built 2 two_shards_replicated.
Proof.
  eexists. repeat split; try reflexivity.
  intros k [<-|[<-|[]]]; discriminate.
Qed.

(** C7, as the code has it: from a built state with shard ids [0 .. m],
    [add_shard()] leaves [m + 2] shards, with ids [0 .. m + 1], and
    [load_data_from_shards()] returns the same bytes as before the call;
    on an empty mapping [add_shard()] fails with the [ValueError] that
    [max] raises on an empty list. *)
Theorem add_shard_rebalance_or_value_error (st : state) :
  (forall m : nat,
      built (S m) st ->
      exists data st',
        load_data_from_shards st = (Ok data, st) /\
        add_shard st = (Ok tt, st') /\
        map fst (mapping st') = shard_keys (m + 2) /\
        List.length (mapping st') = (m + 2)%nat /\
        load_data_from_shards st' = (Ok data, st')) /\
  (mapfile st = None \/ mapfile st = Some [] ->
   add_shard st = (Raise ValueError, set_mapping [] st)).
Proof.
  split; [|apply add_shard_empty].
  intros m Hb.
  destruct (add_shard_rebalance m st Hb) as (data & st' & H1 & H2 & H3 & H4).
  exists data, st'. repeat split; try assumption.
  - destruct H3 as (fs & _ & Hkeys & _).
    now replace (m + 2)%nat with (S (S m)) by lia.
  - destruct H3 as (fs & _ & Hkeys & _).
    apply (f_equal (@List.length string)) in Hkeys.
    unfold shard_keys in Hkeys. rewrite !length_map, length_seq in Hkeys. lia.
Qed.

Lemma add_shard_rebalance_or_value_error_witness :
  (exists data st',
      load_data_from_shards two_shards_replicated
      = (Ok data, two_shards_replicated) /\
      add_shard two_shards_replicated = (Ok tt, st') /\
      map fst (mapping st') = shard_keys (1 + 2) /\
      List.length (mapping st') = (1 + 2)%nat /\
      load_data_from_shards st' = (Ok data, st')) /\
  add_shard fresh = (Raise ValueError, set_mapping [] fresh).
Proof.
  split.
  - apply (proj1 (add_shard_rebalance_or_value_error two_shards_replicated) 1%nat).
    apply two_shards_replicated_built.
  - apply (proj2 (add_shard_rebalance_or_value_error fresh)). now left.
Defined.

(** C7 as stated fails in its last part: on an empty mapping the error
    of [add_shard()] is not a [NoShardsToRebalance] error but the
    [ValueError] of [max]. *)
Lemma add_shard_no_shards_counterexample :
  mapping fresh = [] /\ mapfile fresh = None /\
  ~ fails_with "NoShardsToRebalance" (add_shard fresh) /\
  fails_with "ValueError" (add_shard fresh).
Proof.
  repeat split.
  - intros (e & He & Hn). simpl in He. injection He as <-. discriminate Hn.
  - exists ValueError. split; reflexivity.
Qed.

End AddShardClaim.

(** ** [remove_shard] *)

Section RemoveShard.

Lemma remove_shard_run (m : nat) (data : string) (parts : list string)
      (st : state) :
  built (S (S m)) st ->
  load_data_from_shards st = (Ok data, st) ->
  _generate_sharded_data (Z.of_nat (S m)) data = Ok parts ->
  remove_shard st
  = (Ok tt,
     let st' := after_write_shards (enumerate parts)
                  {| mapping := []; mapfile := mapfile st; data_dir := None;
                     stdout := stdout st |} in
     set_mapfile (Some (mapping st')) st').
Proof.
  intros (fs & Hfile & Hkeys & Hdir & _) Hload Hgen.
  destruct st as [mp f d o]. cbn [mapping mapfile data_dir stdout] in *. subst f d.
  unfold remove_shard.
  unfold bind at 1, load_map, gets. cbn [mapfile].
  unfold bind at 1, modify, set_mapping. cbn [mapfile data_dir stdout].
  unfold bind at 1. rewrite Hload.
  unfold bind at 1, gets. cbn [mapping].
  unfold bind at 1, lift. rewrite Hkeys, ints_shard_keys.
  unfold bind at 1. rewrite max_int_iota.
  unfold bind at 1, rmtree. cbn [data_dir set_data_dir mapping mapfile stdout].
  unfold bind at 1. cbn [mapping mapfile data_dir stdout].
  unfold bind at 1, try_except.
  unfold bind at 1. rewrite int_str.
  unfold bind at 1.
  rewrite (build_shards_run _ _ parts) by (reflexivity || exact Hgen).
  reflexivity.
Qed.

End RemoveShard.

Section RemoveShardClaims.

Lemma one_shard_built : built 1 one_shard.
Proof.
  eexists. repeat split; try reflexivity.
  intros k [<-|[]]; discriminate.
Qed.

(** C1, as the code has it: when exactly one shard exists,
    [remove_shard()] raises nothing.  The division by zero is attempted
    in the splitter, after the directory has been deleted and the mapping
    cleared; its [ZeroDivisionError] is caught, the id 0 is printed, and
    the call returns normally with no [data] directory and an empty
    mapping, written to the mapping file. *)
Theorem remove_shard_last_shard (st : state) :
  built 1 st ->
  remove_shard st
  = (Ok tt, {| mapping := []; mapfile := Some []; data_dir := None;
               stdout := stdout st ++ ["0"] |}).
Proof.
  intros Hb. destruct (built_load _ _ Hb) as (data & Hload).
  destruct Hb as (fs & Hfile & Hkeys & Hdir & _).
  destruct st as [mp f d o]. cbn [mapping mapfile data_dir stdout] in *. subst f d.
  unfold remove_shard.
  unfold bind at 1, load_map, gets. cbn [mapfile].
  unfold bind at 1, modify, set_mapping. cbn [mapfile data_dir stdout].
  unfold bind at 1. rewrite Hload.
  unfold bind at 1, gets. cbn [mapping].
  unfold bind at 1, lift. rewrite Hkeys, ints_shard_keys.
  unfold bind at 1. rewrite max_int_iota.
  reflexivity.
Qed.

Lemma remove_shard_last_shard_witness :
  built 1 one_shard /\
  remove_shard one_shard
  = (Ok tt, {| mapping := []; mapfile := Some []; data_dir := None;
               stdout := stdout one_shard ++ ["0"] |}).
Proof.
  split; [apply one_shard_built|].
  apply (remove_shard_last_shard one_shard). apply one_shard_built.
Defined.

(** C1 as stated fails: on the state with the single shard 0 holding
    "abc", [remove_shard()] does not fail with a [CannotRemoveLastShard]
    error, the state is not the one before the call, and the shard's
    file can no longer be read. *)
Lemma remove_shard_last_shard_counterexample :
  map fst (mapping one_shard) = ["0"] /\
  read_file "0.txt" one_shard = (Ok "abc", one_shard) /\
  ~ fails_with "CannotRemoveLastShard" (remove_shard one_shard) /\
  exec remove_shard one_shard <> one_shard /\
  mapping (exec remove_shard one_shard) = [] /\
  fst (read_file "0.txt" (exec remove_shard one_shard)) = Raise FileNotFoundError.
Proof.
  repeat split; try reflexivity.
  - intros (e & He & _). discriminate He.
  - discriminate.
Qed.

Lemma no_dash_in_shard_files (i n : nat) :
  filter (str_in "-")
         (map (fun j => (str (Z.of_nat j) ++ ".txt")%string) (seq i n)) = [].
Proof.
  revert i; induction n as [|n IH]; intros i; [reflexivity|].
  cbn [seq map filter]. now rewrite shard_file_no_dash, IH.
Qed.

(** C10 as stated fails for the call on a single shard: with the files
    [0.txt] and [0-1.txt] (one shard, replication level 1),
    [remove_shard()] returns normally, having deleted the directory and
    rebuilt nothing, and [current_replication()] afterwards does not
    return 0: [os.listdir] raises [FileNotFoundError]. *)
Lemma remove_shard_resets_replication_counterexample :
  let st' := exec remove_shard one_shard_replicated in
  listdir one_shard_replicated
  = (Ok ["0.txt"; "0-1.txt"], one_shard_replicated) /\
  current_replication one_shard_replicated = (Ok "1", one_shard_replicated) /\
  remove_shard one_shard_replicated = (Ok tt, st') /\
  data_dir st' = None /\
  current_replication st' = (Raise FileNotFoundError, st') /\
  current_replication st' <> (Ok "0", st').
Proof.
  cbv zeta. split; [reflexivity|]. split; [reflexivity|].
  split; [reflexivity|]. split; [reflexivity|]. split; [reflexivity|].
  vm_compute. discriminate.
Qed.

(** C10, amended: after a [remove_shard()] that rebuilt the shards (at
    least two shards before the call), the directory holds the files of
    the new shards and nothing else, whatever replicas it held before,
    and [current_replication()] returns level 0, as the string "0". *)
Theorem remove_shard_resets_replication (m : nat) (st : state) :
  built (S (S m)) st ->
  exists st',
    remove_shard st = (Ok tt, st') /\
    listdir st'
    = (Ok (map (fun k => (k ++ ".txt")%string) (shard_keys (S m))), st') /\
    current_replication st' = (Ok "0", st').
Proof.
  intros Hb. destruct (built_load _ _ Hb) as (data & Hload).
  destruct (generate_sharded_data_positive (Z.of_nat (S m)) data)
    as (parts & Hgen & _ & Hlen); [lia|].
  rewrite Nat2Z.id in Hlen.
  eexists. split; [apply (remove_shard_run m data parts st Hb Hload Hgen)|].
  cbv zeta.
  assert (Hls : forall st',
             data_dir st' = Some (shard_files (enumerate parts)) ->
             listdir st'
             = (Ok (map (fun k => (k ++ ".txt")%string) (shard_keys (S m))), st')).
  { intros st' Hdir. unfold listdir. rewrite Hdir.
    rewrite names_enumerate, Hlen.
    unfold shard_keys. now rewrite map_map. }
  assert (Hdir : data_dir (after_write_shards (enumerate parts)
                             {| mapping := []; mapfile := mapfile st;
                                data_dir := None; stdout := stdout st |})
                 = Some (shard_files (enumerate parts))).
  { destruct parts as [|d parts]; [discriminate Hlen|].
    unfold enumerate. cbn [enumerate_from].
    rewrite data_dir_after_write_shards. cbn [data_dir].
    change ((0, d) :: enumerate_from (0 + 1) parts) with (enumerate (d :: parts)).
    rewrite assoc_set_all_fresh; [reflexivity | | intros k _ []].
    apply names_enumerate_NoDup. }
  split; [now apply Hls|].
  unfold current_replication, bind at 1. rewrite Hls by exact Hdir.
  unfold shard_keys. rewrite map_map, no_dash_in_shard_files. reflexivity.
Qed.

Lemma remove_shard_resets_replication_witness :
  exists st',
    remove_shard two_shards_replicated = (Ok tt, st') /\
    listdir st'
    = (Ok (map (fun k => (k ++ ".txt")%string) (shard_keys 1)), st') /\
    current_replication st' = (Ok "0", st').
Proof.
  apply (remove_shard_resets_replication 0 two_shards_replicated).
  apply two_shards_replicated_built.
Defined.

End RemoveShardClaims.

(** ** Replication levels *)

Section Replication.

(** C4, on the code: at level 0, where the docstring of
    [remove_replication] asks for an exception saying that nothing is
    left to remove, the call returns normally and changes nothing.  The
    state is the one after [build_shards(1, "abc")]. *)
Theorem remove_replication_level_zero_returns :
  current_replication one_shard = (Ok "0", one_shard) /\
  remove_replication one_shard = (Ok tt, one_shard) /\
  ~ fails_with "NoReplicationToRemove" (remove_replication one_shard).
Proof.
  repeat split. intros (e & He & _). discriminate He.
Qed.

(** At level 1 the replicas of that level, and no other file, are
    deleted, and the level is 0 afterwards. *)
Lemma remove_replication_level_one :
  current_replication two_shards_replicated = (Ok "1", two_shards_replicated) /\
  listdir two_shards_replicated
  = (Ok ["0.txt"; "1.txt"; "0-1.txt"; "1-1.txt"], two_shards_replicated) /\
  fst ((remove_replication ;; listdir) two_shards_replicated)
  = Ok ["0.txt"; "1.txt"] /\
  fst ((remove_replication ;; current_replication) two_shards_replicated)
  = Ok "0".
Proof. repeat split. Qed.

(** C5, on the code: after [build_shards(1, "a")] and nine calls of
    [add_replication()] the level is "9".  A tenth call writes the
    replica of level 10, and the level read back is still "9", not 10:
    [max] compares the level strings, and "9" is above "10". *)
Theorem add_replication_level_nine_stuck :
  listdir nine_levels
  = (Ok ["0.txt"; "0-1.txt"; "0-2.txt"; "0-3.txt"; "0-4.txt"; "0-5.txt";
         "0-6.txt"; "0-7.txt"; "0-8.txt"; "0-9.txt"], nine_levels) /\
  current_replication nine_levels = (Ok "9", nine_levels) /\
  fst (add_replication nine_levels) = Ok tt /\
  fst (read_file "0-10.txt" (exec add_replication nine_levels)) = Ok "a" /\
  fst (current_replication (exec add_replication nine_levels)) = Ok "9".
Proof. repeat split. Qed.

(** Below level 9 a call of [add_replication()] raises the level by
    one. *)
Lemma add_replication_low_levels :
  forall n, (n < 9)%nat ->
    let st := exec (build_shards 1 "a" ;; repeat_m n add_replication) fresh in
    fst (current_replication st) = Ok (str (Z.of_nat n)) /\
    fst (current_replication (exec add_replication st))
    = Ok (str (Z.of_nat n + 1)).
Proof.
  intros n Hn.
  do 9 (destruct n as [|n]; [vm_compute; split; reflexivity|]). lia.
Qed.

End Replication.

(** * Further properties of the controller *)

(** ** The shape of the pieces *)

Section Pieces.

Lemma length_substring (s : string) :
  forall n m,
    String.length (substring n m s) = Nat.min m (String.length s - n).
Proof.
  induction s as [|c s IH]; intros n m.
  - rewrite substring_empty. simpl. lia.
  - destruct n as [|n]; simpl.
    + destruct m as [|m]; simpl; [reflexivity|]. rewrite IH. lia.
    + apply IH.
Qed.

Lemma substring_zero (s : string) : forall n, substring n 0 s = "".
Proof.
  induction s as [|c s IH]; intros [|n]; try reflexivity. apply IH.
Qed.

(** The list the splitter returns for a positive count, in closed form:
    [count - 1] pieces of [q] characters, then a piece of [q] characters
    followed by the last [r] characters of the data. *)
Lemma generate_sharded_data_closed_form (count : Z) (data : string) :
  0 < count ->
  let q := Z.to_nat (len data / count) in
  let r := Z.to_nat (len data mod count) in
  let c := Z.to_nat count in
  _generate_sharded_data count data
  = Ok (map (fun i => substring (q * i) q data) (seq 0 (c - 1))
        ++ [(substring (q * (c - 1)) q data ++ substring (q * c) r data)%string]).
Proof.
  intros Hc q r c. unfold _generate_sharded_data, divmod.
  destruct (Z.eqb_spec count 0); [lia|]. unfold rbind.
  rewrite pieces_as_substrings by assumption. fold q. fold c.
  assert (Hlen : 0 <= len data) by (unfold len; lia).
  assert (HQ : 0 <= len data / count) by (apply Z.div_pos; lia).
  assert (Hdm : len data = count * (len data / count) + len data mod count)
    by (apply Z.div_mod; lia).
  assert (Hm : 0 <= len data mod count < count)
    by (apply Z.mod_pos_bound; lia).
  assert (Hqc : Z.of_nat (q * c) = count * (len data / count))
    by (subst q c; nia).
  assert (Hseq : map (fun i => substring (q * i) q data) (seq 0 c)
                 = map (fun i => substring (q * i) q data) (seq 0 (c - 1))
                   ++ [substring (q * (c - 1)) q data]).
  { replace c with (S (c - 1)) at 1 by (subst c; lia).
    now rewrite seq_S, map_app. }
  rewrite Hseq.
  destruct (Z.gtb_spec (len data mod count) 0) as [Hr|Hr].
  - rewrite append_to_last_snoc, slice_tail by lia.
    replace (Z.to_nat (len data - len data mod count)) with (q * c)%nat by lia.
    reflexivity.
  - replace r with 0%nat by (subst r; lia).
    now rewrite substring_zero, append_empty_r.
Qed.

(** The splitter returns [count] pieces; every piece but the last has
    [len(data) // count] characters and the last has the remainder
    [len(data) % count] more. *)
Theorem generate_sharded_data_sizes (count : Z) (data : string) :
  0 < count ->
  exists parts,
    _generate_sharded_data count data = Ok parts /\
    Z.of_nat (List.length parts) = count /\
    forall (i : nat) (shard : string),
      nth_error parts i = Some shard ->
      len shard
      = len data / count
        + (if Z.of_nat i =? count - 1 then len data mod count else 0).
Proof.
  intros Hc. eexists. split; [apply generate_sharded_data_closed_form, Hc|].
  cbv zeta.
  set (q := Z.to_nat (len data / count)).
  set (r := Z.to_nat (len data mod count)).
  set (c := Z.to_nat count).
  assert (Hlen : 0 <= len data) by (unfold len; lia).
  assert (HQ : 0 <= len data / count) by (apply Z.div_pos; lia).
  assert (Hdm : len data = count * (len data / count) + len data mod count)
    by (apply Z.div_mod; lia).
  assert (Hm : 0 <= len data mod count < count)
    by (apply Z.mod_pos_bound; lia).
  assert (Hqc : (q * c + r = String.length data)%nat)
    by (unfold len in *; subst q r c; nia).
  split.
  - rewrite length_app, length_map, length_seq. simpl. subst c. lia.
  - intros i shard Hnth.
    assert (Hi : (i < c - 1 \/ i = c - 1)%nat).
    { assert (Hb : nth_error
                     (map (fun i => substring (q * i) q data) (seq 0 (c - 1))
                      ++ [(substring (q * (c - 1)) q data
                           ++ substring (q * c) r data)%string]) i <> None)
        by congruence.
      apply nth_error_Some in Hb.
      rewrite length_app, length_map, length_seq in Hb. simpl in Hb. lia. }
    destruct Hi as [Hi | ->].
    + rewrite nth_error_app1 in Hnth by (now rewrite length_map, length_seq).
      rewrite nth_error_map, nth_error_seq in Hnth.
      destruct (Nat.ltb_spec i (c - 1)); [|lia].
      cbn [option_map Nat.add] in Hnth. injection Hnth as <-.
      destruct (Z.eqb_spec (Z.of_nat i) (count - 1)); [subst c; lia|].
      unfold len. rewrite length_substring.
      assert (q * i + q <= q * c)%nat by nia.
      rewrite Nat.min_l by lia. subst q. fold (len data). lia.
    + rewrite nth_error_app2 in Hnth by (rewrite length_map, length_seq; lia).
      rewrite length_map, length_seq, Nat.sub_diag in Hnth.
      injection Hnth as <-.
      destruct (Z.eqb_spec (Z.of_nat (c - 1)) (count - 1)); [|subst c; lia].
      unfold len. rewrite length_append, !length_substring.
      assert (q * (c - 1) + q = q * c)%nat by nia.
      rewrite !Nat.min_l by lia. subst q r. fold (len data). lia.
Qed.

Lemma generate_sharded_data_sizes_witness :
  exists parts,
    _generate_sharded_data 3 "abcdefgh" = Ok parts /\
    Z.of_nat (List.length parts) = 3 /\
    forall (i : nat) (shard : string),
      nth_error parts i = Some shard ->
      len shard
      = len "abcdefgh" / 3
        + (if Z.of_nat i =? 3 - 1 then len "abcdefgh" mod 3 else 0).
Proof. apply (generate_sharded_data_sizes 3 "abcdefgh"). lia. Defined.

End Pieces.

(** ** The recorded ranges against the data *)

Section Ranges.

Lemma build_shards_inv (count : Z) (data : string) (st st' : state) :
  build_shards count data st = (Ok None, st') ->
  mapping st = [] /\
  exists parts,
    _generate_sharded_data count data = Ok parts /\
    st' = set_mapfile
            (Some (mapping (after_write_shards (enumerate parts) st)))
            (after_write_shards (enumerate parts) st).
Proof.
  intros Hrun.
  destruct (mapping st) as [|kv m] eqn:Hm.
  2:{ rewrite build_shards_guard in Hrun by (rewrite Hm; discriminate).
      discriminate Hrun. }
  destruct (_generate_sharded_data count data) as [parts|e] eqn:Hgen.
  2:{ rewrite (build_shards_raise _ _ _ _ Hm Hgen) in Hrun. discriminate Hrun. }
  rewrite (build_shards_run _ _ _ _ Hm Hgen) in Hrun.
  injection Hrun as <-. split; [reflexivity|]. now exists parts.
Qed.

Lemma entry_after_write_shards (parts : list string) (i : nat) (shard : string)
      (st : state) :
  mapping st = [] ->
  nth_error parts i = Some shard ->
  assoc_get (str (Z.of_nat i)) (mapping (after_write_shards (enumerate parts) st))
  = Some {| start := Z.of_nat i * len shard;
            end_ := (Z.of_nat i + 1) * len shard |}.
Proof.
  intros Hm Hnth. rewrite mapping_after_write_shards by exact Hm.
  apply assoc_get_in.
  - rewrite keys_enumerate. apply shard_keys_NoDup.
  - unfold shard_entries. apply in_map_iff.
    exists (Z.of_nat i, shard). split; [reflexivity|].
    exact (enumerate_from_nth parts 0 i shard Hnth).
Qed.

Lemma closed_form_nth (q r c i : nat) (data shard : string) :
  nth_error (map (fun i => substring (q * i) q data) (seq 0 (c - 1))
             ++ [(substring (q * (c - 1)) q data
                  ++ substring (q * c) r data)%string]) i = Some shard ->
  (i < c - 1 /\ shard = substring (q * i) q data)%nat \/
  (i = c - 1 /\
   shard = (substring (q * (c - 1)) q data ++ substring (q * c) r data)%string)%nat.
Proof.
  intros Hnth.
  assert (Hb : (i < S (c - 1))%nat).
  { assert (Hb : nth_error
                   (map (fun i => substring (q * i) q data) (seq 0 (c - 1))
                    ++ [(substring (q * (c - 1)) q data
                         ++ substring (q * c) r data)%string]) i <> None)
      by congruence.
    apply nth_error_Some in Hb.
    rewrite length_app, length_map, length_seq in Hb. simpl in Hb. lia. }
  destruct (Nat.eq_dec i (c - 1)) as [->|Hne].
  - right. split; [reflexivity|].
    rewrite nth_error_app2 in Hnth by (rewrite length_map, length_seq; lia).
    rewrite length_map, length_seq, Nat.sub_diag in Hnth.
    now injection Hnth as <-.
  - left. split; [lia|].
    rewrite nth_error_app1 in Hnth by (rewrite length_map, length_seq; lia).
    rewrite nth_error_map, nth_error_seq in Hnth.
    destruct (Nat.ltb_spec i (c - 1)); [|lia].
    cbn [option_map Nat.add] in Hnth. now injection Hnth as <-.
Qed.

Lemma len_slice_nonneg (s : string) (a b : Z) :
  0 <= a -> 0 <= b ->
  len (slice s (Some a) (Some b))
  = Z.max 0 (Z.min b (len s) - Z.min a (len s)).
Proof.
  intros Ha Hb. unfold slice, clamp_index.
  destruct (Z.ltb_spec a 0); [lia|].
  destruct (Z.ltb_spec b 0); [lia|].
  unfold len at 1. rewrite length_substring. unfold len. lia.
Qed.

(** With a remainder [r > 0] the range recorded for the last of [c >= 2]
    shards is shorter than the shard. *)
Lemma last_range_arith (q r c L : Z) :
  0 <= q -> 0 < r -> 2 <= c -> L = q * c + r ->
  Z.max 0 (Z.min (c * (q + r)) L - Z.min ((c - 1) * (q + r)) L) <> q + r.
Proof.
  intros Hq Hr Hc ->.
  assert (H1 : q * c + r <= c * (q + r)) by nia.
  assert (H2 : q * c - q + r <= (c - 1) * (q + r)) by nia.
  assert (H3 : 0 <= q * c - q) by nia.
  lia.
Qed.

(** After [build_shards(count, data)] with a positive count, the range
    recorded for a shard selects that shard's bytes in the data,
    [data[start:end] == shard], exactly when the shard is not the last
    one or the remainder [len(data) % count] is zero. *)
Theorem build_shards_ranges (count : Z) (data : string) (st st' : state) :
  0 < count ->
  build_shards count data st = (Ok None, st') ->
  exists parts,
    _generate_sharded_data count data = Ok parts /\
    forall (i : nat) (shard : string),
      nth_error parts i = Some shard ->
      exists e,
        assoc_get (str (Z.of_nat i)) (mapping st') = Some e /\
        (slice data (Some (start e)) (Some (end_ e)) = shard <->
         Z.of_nat i < count - 1 \/ len data mod count = 0).
Proof.
  intros Hc Hrun.
  destruct (build_shards_inv _ _ _ _ Hrun) as (Hm & parts & Hgen & ->).
  exists parts. split; [exact Hgen|].
  intros i shard Hnth.
  exists {| start := Z.of_nat i * len shard;
            end_ := (Z.of_nat i + 1) * len shard |}.
  split; [exact (entry_after_write_shards parts i shard st Hm Hnth)|].
  cbn [start end_].
  rewrite generate_sharded_data_closed_form in Hgen by exact Hc.
  cbv zeta in Hgen. injection Hgen as <-.
  set (q := Z.to_nat (len data / count)) in *.
  set (r := Z.to_nat (len data mod count)) in *.
  set (c := Z.to_nat count) in *.
  assert (Hlen : 0 <= len data) by (unfold len; lia).
  assert (HQ : 0 <= len data / count) by (apply Z.div_pos; lia).
  assert (Hdm : len data = count * (len data / count) + len data mod count)
    by (apply Z.div_mod; lia).
  assert (Hmod : 0 <= len data mod count < count)
    by (apply Z.mod_pos_bound; lia).
  assert (Hqc : (q * c + r = String.length data)%nat)
    by (unfold len in *; subst q r c; nia).
  assert (Hc1 : (1 <= c)%nat) by (subst c; lia).
  destruct (closed_form_nth _ _ _ _ _ _ Hnth) as [[Hi ->]|[-> ->]].
  - (* a piece before the last *)
    assert (Hl : len (substring (q * i) q data) = Z.of_nat q).
    { unfold len. rewrite length_substring. f_equal. nia. }
    rewrite Hl. split; [intros _; left; subst c; lia|]. intros _.
    rewrite slice_inner by (unfold len in *; nia).
    f_equal; nia.
  - (* the last piece *)
    assert (Hl : len (substring (q * (c - 1)) q data
                      ++ substring (q * c) r data) = Z.of_nat (q + r)).
    { unfold len. rewrite length_append, !length_substring. f_equal. nia. }
    rewrite Hl. split.
    + intros Heq. right.
      apply (f_equal len) in Heq. rewrite Hl in Heq.
      rewrite len_slice_nonneg in Heq by nia.
      destruct (Z.eq_dec (len data mod count) 0) as [|Hr]; [assumption|].
      exfalso. revert Heq.
      replace ((Z.of_nat (c - 1) + 1) * Z.of_nat (q + r))
        with (Z.of_nat c * (Z.of_nat q + Z.of_nat r)) by nia.
      replace (Z.of_nat (c - 1) * Z.of_nat (q + r))
        with ((Z.of_nat c - 1) * (Z.of_nat q + Z.of_nat r)) by nia.
      rewrite Nat2Z.inj_add.
      apply last_range_arith; [lia | subst r; lia | subst r c; lia |].
      unfold len. lia.
    + intros [Hi|Hr0]; [subst c; lia|].
      assert (Er : r = 0%nat) by (subst r; lia).
      rewrite Er, substring_zero, append_empty_r, Nat.add_0_r.
      rewrite slice_inner by (unfold len in *; nia).
      f_equal; nia.
Qed.

Lemma build_shards_ranges_witness :
  exists parts,
    _generate_sharded_data 3 "abcdefgh" = Ok parts /\
    forall (i : nat) (shard : string),
      nth_error parts i = Some shard ->
      exists e,
        assoc_get (str (Z.of_nat i))
                  (mapping (exec (build_shards 3 "abcdefgh") fresh)) = Some e /\
        (slice "abcdefgh" (Some (start e)) (Some (end_ e)) = shard <->
         Z.of_nat i < 3 - 1 \/ len "abcdefgh" mod 3 = 0).
Proof.
  apply (build_shards_ranges 3 "abcdefgh" fresh); [lia | reflexivity].
Defined.

End Ranges.

(** ** The mapping file after a mutation *)

Section Persistence.

Lemma bind_ok_inv {A B : Type} (m : M A) (k : A -> M B) (st st' : state) (b : B) :
  bind m k st = (Ok b, st') ->
  exists a st1, m st = (Ok a, st1) /\ k a st1 = (Ok b, st').
Proof.
  unfold bind. destruct (m st) as [[a|e] st1]; [|discriminate].
  intros H. now exists a, st1.
Qed.

Lemma write_map_persists (st st' : state) :
  write_map st = (Ok tt, st') -> load_map st' = (Ok (mapping st'), st').
Proof. intros [= <-]. reflexivity. Qed.

Ltac peel H :=
  repeat (apply bind_ok_inv in H;
          let a := fresh "a" in
          let s := fresh "s" in
          let H1 := fresh "Hstep" in
          destruct H as (a & s & H1 & H); cbv beta zeta in H).

(** Whenever [build_shards] builds, or [add_shard], [remove_shard] or
    [add_replication] returns normally, from any state whatever, the
    mapping file holds the mapping in memory: [load_map()], and so a
    handler constructed afterwards, gets [self.mapping] back. *)
Theorem mutators_persist_mapping (st st' : state) :
  (forall count data,
      build_shards count data st = (Ok None, st') ->
      load_map st' = (Ok (mapping st'), st')) /\
  (add_shard st = (Ok tt, st') -> load_map st' = (Ok (mapping st'), st')) /\
  (remove_shard st = (Ok tt, st') -> load_map st' = (Ok (mapping st'), st')) /\
  (add_replication st = (Ok tt, st') -> load_map st' = (Ok (mapping st'), st')).
Proof.
  repeat split.
  - intros count data H.
    destruct (build_shards_inv _ _ _ _ H) as (_ & parts & _ & ->). reflexivity.
  - unfold add_shard. intros H. peel H. exact (write_map_persists _ _ H).
  - unfold remove_shard. intros H. peel H. exact (write_map_persists _ _ H).
  - unfold add_replication. intros H. peel H. exact (write_map_persists _ _ H).
Qed.

Lemma mutators_persist_mapping_witness :
  load_map (exec (build_shards 2 "abcdef") fresh)
  = (Ok (mapping (exec (build_shards 2 "abcdef") fresh)),
     exec (build_shards 2 "abcdef") fresh) /\
  load_map (exec add_shard one_shard)
  = (Ok (mapping (exec add_shard one_shard)), exec add_shard one_shard) /\
  load_map (exec remove_shard two_shards_replicated)
  = (Ok (mapping (exec remove_shard two_shards_replicated)),
     exec remove_shard two_shards_replicated) /\
  load_map (exec add_replication one_shard)
  = (Ok (mapping (exec add_replication one_shard)),
     exec add_replication one_shard).
Proof.
  split; [|split; [|split]].
  - apply (proj1 (mutators_persist_mapping fresh _) 2 "abcdef"). reflexivity.
  - apply (proj1 (proj2 (mutators_persist_mapping one_shard _))). reflexivity.
  - apply (proj1 (proj2 (proj2
             (mutators_persist_mapping two_shards_replicated _)))).
    reflexivity.
  - apply (proj2 (proj2 (proj2 (mutators_persist_mapping one_shard _)))).
    reflexivity.
Defined.

End Persistence.

(** ** Reading shards that are not there *)

Section MissingShards.

Lemma read_file_cases (name : string) (st : state) :
  (exists d, read_file name st = (Ok d, st)) \/
  read_file name st = (Raise FileNotFoundError, st).
Proof.
  unfold read_file. destruct (data_dir st) as [fs|]; [|now right].
  destruct (assoc_get name fs) as [d|]; [left; now exists d | now right].
Qed.

Lemma read_shards_cases (keys : list string) (st : state) :
  (exists ds, read_shards keys st = (Ok ds, st) /\
              Forall (fun k => exists d, read_file (k ++ ".txt") st = (Ok d, st))
                     keys) \/
  (read_shards keys st = (Raise FileNotFoundError, st) /\
   exists k, In k keys /\
             read_file (k ++ ".txt") st = (Raise FileNotFoundError, st)).
Proof.
  induction keys as [|k keys IH].
  - left. exists []. split; [reflexivity | constructor].
  - cbn [read_shards]. unfold read_text, bind, ret.
    destruct (read_file_cases (k ++ ".txt") st) as [(d & Hd)|Hd]; rewrite Hd;
      cbv beta iota.
    + destruct IH as [(ds & Hds & Hall)|(Hds & k' & Hin & Hk')]; rewrite Hds.
      * left. exists (universal_newlines d :: ds). split; [reflexivity|].
        constructor; [now exists d | exact Hall].
      * right. split; [reflexivity|]. exists k'. split; [now right | exact Hk'].
    + right. split; [reflexivity|]. exists k. split; [now left | exact Hd].
Qed.

(** [load_data_from_shards] never changes the state, and it fails in
    one way only: with [FileNotFoundError], exactly when some key of the
    mapping has no file [data/<key>.txt]. *)
Theorem load_data_from_shards_missing (st : state) :
  snd (load_data_from_shards st) = st /\
  ((exists data, fst (load_data_from_shards st) = Ok data) \/
   fst (load_data_from_shards st) = Raise FileNotFoundError) /\
  (fst (load_data_from_shards st) = Raise FileNotFoundError <->
   exists k, In k (map fst (mapping st)) /\
             read_file (k ++ ".txt") st = (Raise FileNotFoundError, st)).
Proof.
  unfold load_data_from_shards, bind, gets, ret.
  destruct (read_shards_cases (map fst (mapping st)) st)
    as [(ds & Hds & Hall)|(Hds & k & Hin & Hk)]; rewrite Hds; cbn [fst snd].
  - split; [reflexivity|]. split; [left; now eexists|].
    split; [discriminate|].
    intros (k & Hin & Hk). rewrite Forall_forall in Hall.
    destruct (Hall k Hin) as (d & Hd). rewrite Hd in Hk. discriminate Hk.
  - split; [reflexivity|]. split; [now right|].
    split; [intros _; now exists k | reflexivity].
Qed.

Lemma load_reloaded_missing (k : string) (st : state) :
  In k (map fst (mapping (reloaded st))) ->
  read_file (k ++ ".txt") st = (Raise FileNotFoundError, st) ->
  load_data_from_shards (reloaded st) = (Raise FileNotFoundError, reloaded st).
Proof.
  intros Hin Hk. unfold load_data_from_shards, bind, gets.
  destruct (read_shards_cases (map fst (mapping (reloaded st))) (reloaded st))
    as [(ds & _ & Hall)|(Hds & _)]; [|now rewrite Hds].
  rewrite Forall_forall in Hall. destruct (Hall k Hin) as (d & Hd).
  unfold read_file in *. cbn [reloaded set_mapping data_dir] in Hd.
  destruct (data_dir st) as [fs|]; [|discriminate Hd].
  destruct (assoc_get (k ++ ".txt") fs); discriminate.
Qed.

(** When the file of some shard of the mapping file is missing,
    [add_shard] and [remove_shard] stop with [FileNotFoundError] after
    reloading the mapping: no file is written or deleted, and the mapping
    file is not touched. *)
Theorem rebalance_stops_on_missing_shard (k : string) (st : state) :
  In k (map fst (mapping (reloaded st))) ->
  read_file (k ++ ".txt") st = (Raise FileNotFoundError, st) ->
  add_shard st = (Raise FileNotFoundError, reloaded st) /\
  remove_shard st = (Raise FileNotFoundError, reloaded st) /\
  data_dir (reloaded st) = data_dir st /\
  mapfile (reloaded st) = mapfile st.
Proof.
  intros Hin Hk. pose proof (load_reloaded_missing k st Hin Hk) as Hload.
  repeat split.
  - unfold add_shard, bind at 1, load_map, gets.
    unfold bind at 1, modify. fold (reloaded st).
    unfold bind at 1. now rewrite Hload.
  - unfold remove_shard, bind at 1, load_map, gets.
    unfold bind at 1, modify. fold (reloaded st).
    unfold bind at 1. now rewrite Hload.
Qed.

Lemma rebalance_stops_on_missing_shard_witness :
  add_shard shard_lost = (Raise FileNotFoundError, reloaded shard_lost) /\
  remove_shard shard_lost = (Raise FileNotFoundError, reloaded shard_lost) /\
  data_dir (reloaded shard_lost) = data_dir shard_lost /\
  mapfile (reloaded shard_lost) = mapfile shard_lost.
Proof.
  apply (rebalance_stops_on_missing_shard "1" shard_lost).
  - right. now left.
  - reflexivity.
Defined.

End MissingShards.

(** ** Removing a shard, and the two together *)

Section Rebalance.

Lemma remove_shard_rebalance (m : nat) (st : state) :
  built (S (S m)) st ->
  exists data st',
    load_data_from_shards st = (Ok data, st) /\
    remove_shard st = (Ok tt, st') /\
    built (S m) st' /\
    load_data_from_shards st' = (Ok data, st').
Proof.
  intros Hb. destruct (built_load _ _ Hb) as (data & Hload).
  destruct (generate_sharded_data_positive (Z.of_nat (S m)) data)
    as (parts & Hgen & Hjoin & Hlen); [lia|].
  rewrite Nat2Z.id in Hlen.
  exists data. eexists. split; [exact Hload|].
  split; [apply (remove_shard_run m data parts st Hb Hload Hgen)|].
  cbv zeta.
  destruct parts as [|d parts]; [discriminate Hlen|].
  assert (Hkeys : forall s0, mapping s0 = [] ->
             map fst (mapping (after_write_shards (enumerate (d :: parts)) s0))
             = shard_keys (S m)).
  { intros s0 H0. rewrite mapping_after_write_shards by exact H0.
    now rewrite keys_enumerate, Hlen. }
  split.
  - rewrite <- Hlen. eapply written_shards_built.
    + reflexivity.
    + cbn [mapping set_mapfile]. rewrite Hlen. now apply Hkeys.
    + apply data_dir_after_write_shards.
  - rewrite <- Hjoin at 1. eapply load_written_clean.
    + cbn [mapping set_mapfile]. rewrite Hlen. now apply Hkeys.
    + apply data_dir_after_write_shards.
    + rewrite Hjoin. exact (load_no_cr _ _ _ Hload).
Qed.

(** From at least two shards, [remove_shard] leaves one shard fewer with
    ids [0 .. m], the same bytes to load, and exactly the mapping and the
    directory that [build_shards(m + 1, data)] gives a fresh handler;
    nothing is printed. *)
Theorem remove_shard_rebuilds (m : nat) (st : state) :
  built (S (S m)) st ->
  exists data st',
    load_data_from_shards st = (Ok data, st) /\
    remove_shard st = (Ok tt, st') /\
    built (S m) st' /\
    load_data_from_shards st' = (Ok data, st') /\
    mapping st' = mapping (exec (build_shards (Z.of_nat (S m)) data) fresh) /\
    data_dir st' = data_dir (exec (build_shards (Z.of_nat (S m)) data) fresh) /\
    stdout st' = stdout st.
Proof.
  intros Hb.
  destruct (remove_shard_rebalance m st Hb) as (data & st' & H1 & H2 & H3 & H4).
  exists data, st'. repeat (split; [assumption|]).
  destruct (generate_sharded_data_positive (Z.of_nat (S m)) data)
    as (parts & Hgen & _ & Hlen); [lia|].
  rewrite (remove_shard_run m data parts st Hb H1 Hgen) in H2.
  injection H2 as <-. unfold exec.
  rewrite (build_shards_run _ _ parts fresh) by (reflexivity || exact Hgen).
  cbv zeta. cbn [snd].
  destruct parts as [|d parts]; [simpl in Hlen; lia|].
  repeat split.
Qed.

Lemma remove_shard_rebuilds_witness :
  exists data st',
    load_data_from_shards two_shards_replicated
    = (Ok data, two_shards_replicated) /\
    remove_shard two_shards_replicated = (Ok tt, st') /\
    built 1 st' /\
    load_data_from_shards st' = (Ok data, st') /\
    mapping st' = mapping (exec (build_shards (Z.of_nat 1) data) fresh) /\
    data_dir st' = data_dir (exec (build_shards (Z.of_nat 1) data) fresh) /\
    stdout st' = stdout two_shards_replicated.
Proof.
  apply (remove_shard_rebuilds 0 two_shards_replicated).
  apply two_shards_replicated_built.
Defined.

(** [add_shard] followed by [remove_shard] gives back the number of
    shards and the bytes there were. *)
Theorem add_then_remove_shard (m : nat) (st : state) :
  built (S m) st ->
  exists data st',
    load_data_from_shards st = (Ok data, st) /\
    (add_shard ;; remove_shard) st = (Ok tt, st') /\
    built (S m) st' /\
    load_data_from_shards st' = (Ok data, st').
Proof.
  intros Hb.
  destruct (add_shard_rebalance m st Hb) as (data & s1 & H1 & H2 & H3 & H4).
  destruct (remove_shard_rebalance m s1 H3)
    as (data' & s2 & H5 & H6 & H7 & H8).
  rewrite H4 in H5. injection H5 as <-.
  exists data, s2. repeat split; try assumption.
  unfold bind. now rewrite H2.
Qed.

Lemma add_then_remove_shard_witness :
  exists data st',
    load_data_from_shards one_shard = (Ok data, one_shard) /\
    (add_shard ;; remove_shard) one_shard = (Ok tt, st') /\
    built 1 st' /\
    load_data_from_shards st' = (Ok data, st').
Proof. apply (add_then_remove_shard 0 one_shard). apply one_shard_built. Defined.

(** On an empty mapping file, or none, [remove_shard] stops at
    [max(keys)] with [ValueError], before [rmtree]: only [self.mapping]
    has been reloaded. *)
Lemma remove_shard_empty (st : state) :
  mapfile st = None \/ mapfile st = Some [] ->
  remove_shard st = (Raise ValueError, set_mapping [] st).
Proof.
  intros H. unfold remove_shard, bind at 1, load_map, gets.
  destruct H as [-> | ->]; reflexivity.
Qed.

Lemma remove_shard_empty_witness :
  remove_shard fresh = (Raise ValueError, set_mapping [] fresh).
Proof. apply (remove_shard_empty fresh). now left. Defined.

(** [build_shards] on an empty mapping with a count that is not
    positive: a zero count raises [ZeroDivisionError] and nothing is
    written; a negative count writes no shard, does not create the
    directory, and writes the empty mapping to the mapping file. *)
Theorem build_shards_nonpositive (count : Z) (data : string) (st : state) :
  mapping st = [] ->
  (count = 0 -> build_shards count data st = (Raise ZeroDivisionError, st)) /\
  (count < 0 -> build_shards count data st = (Ok None, set_mapfile (Some []) st)).
Proof.
  intros Hm. split.
  - intros ->. apply build_shards_raise; [exact Hm | reflexivity].
  - intros Hc.
    rewrite (build_shards_run count data [] st Hm)
      by now apply generate_sharded_data_negative.
    cbv zeta. cbn [enumerate enumerate_from after_write_shards]. now rewrite Hm.
Qed.

Lemma build_shards_nonpositive_witness :
  build_shards 0 "abc" fresh = (Raise ZeroDivisionError, fresh) /\
  build_shards (-1) "abc" fresh = (Ok None, set_mapfile (Some []) fresh).
Proof.
  split.
  - apply (proj1 (build_shards_nonpositive 0 "abc" fresh eq_refl)). reflexivity.
  - apply (proj2 (build_shards_nonpositive (-1) "abc" fresh eq_refl)). lia.
Defined.

End Rebalance.

(** ** The level that [current_replication] returns *)

Section Level.

Lemma findall_from_digit_strings (s : string) :
  forall cur,
    (forall ds, cur = Some ds -> all_chars is_digit ds = true) ->
    Forall digit_string (findall_dash_digits_from cur s).
Proof.
  assert (Hemit : forall cur,
             (forall ds, cur = Some ds -> all_chars is_digit ds = true) ->
             Forall digit_string
                    (match cur with
                     | Some (String c ds) => [String c ds]
                     | _ => []
                     end)).
  { intros [[|c ds]|] H; constructor; [|constructor].
    split; [discriminate | now apply H]. }
  assert (Hnext : forall c ds,
             (if Ascii.eqb c "-" then Some ""%string else None) = Some ds ->
             all_chars is_digit ds = true).
  { intros c ds. destruct (Ascii.eqb c "-"); [|discriminate].
    now intros [= <-]. }
  induction s as [|c s IH]; intros cur Hcur; cbn [findall_dash_digits_from].
  - now apply Hemit.
  - destruct cur as [ds|].
    + destruct (is_digit c) eqn:Hc.
      * apply IH. intros ds' [= <-]. rewrite all_chars_append.
        rewrite (Hcur ds eq_refl). simpl. now rewrite Hc.
      * apply Forall_app. split; [exact (Hemit (Some ds) Hcur)|].
        apply IH. apply Hnext.
    + apply IH. apply Hnext.
Qed.

Lemma fold_max_str_in (l : list string) (x : string) :
  In (fold_left (fun m s => if String.ltb m s then s else m) l x) (x :: l).
Proof.
  revert x; induction l as [|y l IH]; intros x; [now left|].
  cbn [fold_left]. destruct (IH (if String.ltb x y then y else x)) as [H|H].
  - rewrite <- H. destruct (String.ltb x y); [right; now left | now left].
  - right. now right.
Qed.

Lemma is_digit_char (c : ascii) (d : option Decimal.uint) :
  is_digit c = true -> d <> None -> uint_of_char c d <> None.
Proof.
  intros Hc Hd. destruct d as [d|]; [|contradiction].
  destruct c as [[|] [|] [|] [|] [|] [|] [|] [|]]; try discriminate Hc;
    discriminate.
Qed.

Lemma uint_of_digits (s : string) :
  all_chars is_digit s = true -> NilEmpty.uint_of_string s <> None.
Proof.
  induction s as [|c s IH]; cbn [all_chars NilEmpty.uint_of_string];
    [discriminate|].
  intros H. apply andb_true_iff in H as [H1 H2].
  apply is_digit_char; [exact H1 | now apply IH].
Qed.

(** [int] accepts every non-empty string of digits, with a result that
    is not negative. *)
Lemma int_digit_string (s : string) :
  digit_string s -> exists z, int s = Ok z /\ 0 <= z.
Proof.
  intros [Hne Hd]. destruct s as [|c s]; [contradiction|].
  cbn [all_chars] in Hd. apply andb_true_iff in Hd as [Hc Hs].
  rewrite int_without_plus.
  2:{ intros s' [= -> _]. discriminate Hc. }
  unfold NilZero.int_of_string.
  destruct (Ascii.eqb_spec c "-") as [->|_]; [discriminate Hc|].
  unfold NilZero.uint_of_string.
  destruct (NilEmpty.uint_of_string (String c s)) as [d|] eqn:E.
  - exists (Z.of_uint d). split; [reflexivity|].
    unfold Z.of_uint. apply N2Z.is_nonneg.
  - exfalso. revert E. apply uint_of_digits.
    cbn [all_chars]. now rewrite Hc, Hs.
Qed.

(** The largest of ["0"] and the digit runs found in the names. *)
Lemma reps_max_digit_string (names : list string) :
  digit_string
    (fold_left (fun m s => if String.ltb m s then s else m)
               (flat_map findall_dash_digits (filter (str_in "-") names)) "0").
Proof.
  set (reps := flat_map findall_dash_digits (filter (str_in "-") names)).
  assert (Hreps : Forall digit_string ("0"%string :: reps)).
  { constructor; [split; [discriminate | reflexivity]|].
    subst reps. generalize (filter (str_in "-") names) as l.
    induction l as [|n l IH]; [constructor|].
    cbn [flat_map]. apply Forall_app. split; [|exact IH].
    apply findall_from_digit_strings. discriminate. }
  rewrite Forall_forall in Hreps. apply Hreps, fold_max_str_in.
Qed.

Lemma current_replication_ok (st : state) (fs : directory) :
  data_dir st = Some fs ->
  exists lvl level,
    current_replication st = (Ok lvl, st) /\ int lvl = Ok level /\ 0 <= level.
Proof.
  intros Hd. unfold current_replication, bind, listdir. rewrite Hd.
  unfold lift, max_str. cbn [app].
  destruct (int_digit_string _ (reps_max_digit_string (map fst fs)))
    as (z & Hz & Hpos).
  eexists. exists z. split; [reflexivity|]. now split.
Qed.

(** [current_replication] needs the directory and nothing else: without
    it the call raises [FileNotFoundError]; with it, whatever the files
    are called, the call returns a non-empty string of digits, which
    [int] turns into a level that is not negative, and the state is
    unchanged. *)
Theorem current_replication_total (st : state) :
  (data_dir st = None ->
   current_replication st = (Raise FileNotFoundError, st)) /\
  (data_dir st <> None ->
   exists lvl level,
     current_replication st = (Ok lvl, st) /\
     digit_string lvl /\ int lvl = Ok level /\ 0 <= level).
Proof.
  unfold current_replication, bind, listdir. split.
  - intros ->. reflexivity.
  - destruct (data_dir st) as [fs|]; [intros _ | contradiction].
    unfold lift, max_str. cbn [app].
    pose proof (reps_max_digit_string (map fst fs)) as Hd.
    destruct (int_digit_string _ Hd) as (z & Hz & Hpos).
    eexists. exists z. split; [reflexivity|].
    split; [exact Hd | split; assumption].
Qed.

Lemma current_replication_total_witness :
  current_replication fresh = (Raise FileNotFoundError, fresh) /\
  exists lvl level,
    current_replication two_shards_replicated = (Ok lvl, two_shards_replicated) /\
    digit_string lvl /\ int lvl = Ok level /\ 0 <= level.
Proof.
  split.
  - apply (proj1 (current_replication_total fresh)). reflexivity.
  - apply (proj2 (current_replication_total two_shards_replicated)). discriminate.
Defined.

End Level.

(** ** What the replication methods leave alone *)

Section ReplicationFrame.

Lemma prefix_dash_weaken (h hay : string) :
  prefix ("-" ++ h) hay = true -> prefix "-" hay = true.
Proof.
  destruct hay as [|c hay]; cbn [append prefix]; [discriminate|].
  destruct (ascii_dec "-" c); [|discriminate]. intros _. now destruct hay.
Qed.

(** A name that contains ['-' + level] contains a dash. *)
Lemma str_in_dash_weaken (h hay : string) :
  str_in ("-" ++ h) hay = true -> str_in "-" hay = true.
Proof.
  induction hay as [|c hay IH].
  - cbn [str_in]. rewrite !orb_false_r. apply prefix_dash_weaken.
  - change (str_in ("-" ++ h) (String c hay))
      with (prefix ("-" ++ h) (String c hay) || str_in ("-" ++ h) hay).
    change (str_in "-" (String c hay))
      with (prefix "-" (String c hay) || str_in "-" hay).
    intros H. apply orb_true_iff in H as [H|H]; apply orb_true_iff.
    + left. now apply prefix_dash_weaken in H.
    + right. now apply IH.
Qed.

Lemma assoc_get_del_other {V : Type} (k k' : string) (d : list (string * V)) :
  k <> k' -> assoc_get k' (assoc_del k d) = assoc_get k' d.
Proof.
  intros Hne. unfold assoc_del.
  induction d as [|[k0 v0] d IH]; [reflexivity|].
  cbn [filter fst assoc_get].
  destruct (String.eqb_spec k0 k) as [->|Hk0]; cbn [negb assoc_get].
  - destruct (String.eqb_spec k k'); [contradiction | exact IH].
  - now rewrite IH.
Qed.

Lemma keeps_primaries_refl (s : state) : keeps_primaries s s.
Proof. now repeat split. Qed.

Lemma keeps_primaries_trans (s1 s2 s3 : state) :
  keeps_primaries s1 s2 -> keeps_primaries s2 s3 -> keeps_primaries s1 s3.
Proof.
  intros (A1 & A2 & A3 & A4) (B1 & B2 & B3 & B4).
  repeat split; try congruence.
  intros name Hn. now rewrite B4, A4.
Qed.

Lemma bind_keeps {A B : Type} (R : state -> state -> Prop)
      (m : M A) (k : A -> M B) (s : state) :
  (forall s1 s2 s3, R s1 s2 -> R s2 s3 -> R s1 s3) ->
  R s (snd (m s)) ->
  (forall a s1, R s1 (snd (k a s1))) ->
  R s (snd (bind m k s)).
Proof.
  intros Htrans Hm Hk. unfold bind.
  destruct (m s) as [[a|e] s1]; cbn [snd] in *; [|exact Hm].
  eapply Htrans; [exact Hm | apply Hk].
Qed.

Lemma for_each_keeps {A : Type} (R : state -> state -> Prop)
      (l : list A) (f : A -> M unit) :
  (forall s, R s s) ->
  (forall s1 s2 s3, R s1 s2 -> R s2 s3 -> R s1 s3) ->
  (forall x s, R s (snd (f x s))) ->
  forall s, R s (snd (for_each l f s)).
Proof.
  intros Hrefl Htrans Hf. induction l as [|x l IH]; intros s; [apply Hrefl|].
  cbn [for_each]. apply bind_keeps; [exact Htrans | apply Hf |].
  intros _ s1. apply IH.
Qed.

Lemma current_replication_state (s : state) : snd (current_replication s) = s.
Proof.
  unfold current_replication, bind, listdir.
  destruct (data_dir s); reflexivity.
Qed.

Lemma listdir_state (s : state) : snd (listdir s) = s.
Proof. unfold listdir. destruct (data_dir s); reflexivity. Qed.

Lemma os_remove_keeps (f : string) (s : state) :
  str_in "-" f = true -> keeps_primaries s (snd (os_remove f s)).
Proof.
  intros Hf. unfold os_remove.
  destruct (data_dir s) as [fs|] eqn:Hd; [|apply keeps_primaries_refl].
  destruct (assoc_get f fs); [|apply keeps_primaries_refl].
  cbn [snd]. repeat split. intros name Hn.
  unfold read_file. cbn [data_dir set_data_dir]. rewrite Hd.
  rewrite assoc_get_del_other by (intros ->; congruence).
  now destruct (assoc_get name fs).
Qed.

(** Whatever the state and the outcome, [remove_replication] leaves the
    mapping, the mapping file and the output as they were and changes no
    file whose name has no dash: no primary is ever deleted. *)
Theorem remove_replication_keeps_primaries (st : state) :
  mapping (exec remove_replication st) = mapping st /\
  mapfile (exec remove_replication st) = mapfile st /\
  stdout (exec remove_replication st) = stdout st /\
  forall name,
    str_in "-" name = false ->
    fst (read_file name (exec remove_replication st)) = fst (read_file name st).
Proof.
  change (keeps_primaries st (exec remove_replication st)).
  unfold exec, remove_replication.
  apply bind_keeps; [exact keeps_primaries_trans | |].
  - rewrite current_replication_state. apply keeps_primaries_refl.
  - intros h s1. apply bind_keeps; [exact keeps_primaries_trans | |].
    + rewrite listdir_state. apply keeps_primaries_refl.
    + intros files s2.
      apply for_each_keeps;
        [exact keeps_primaries_refl | exact keeps_primaries_trans |].
      intros f s. destruct (str_in ("-" ++ h) f) eqn:Hf.
      * apply os_remove_keeps. now apply str_in_dash_weaken in Hf.
      * apply keeps_primaries_refl.
Qed.

End ReplicationFrame.

(** ** What [add_replication] writes *)

Section AddReplication.

Lemma str_in_dash_mid (a b : string) : str_in "-" (a ++ "-" ++ b) = true.
Proof.
  induction a as [|c a IH].
  - cbn [append]. destruct b; cbn [str_in prefix];
      (destruct (ascii_dec "-" "-") as [_|n]; [reflexivity | now destruct n]).
  - change (str_in "-" (String c a ++ "-" ++ b))
      with (prefix "-" (String c (a ++ "-" ++ b)) || str_in "-" (a ++ "-" ++ b)).
    rewrite IH. apply orb_true_r.
Qed.

Lemma replica_of_dash (f1 : string) (level : Z) :
  str_in "-" (replica_of f1 level) = true.
Proof. apply str_in_dash_mid. Qed.

Lemma copyfile_run (src dst content : string) (fs : directory) (s : state) :
  data_dir s = Some fs ->
  assoc_get src fs = Some content ->
  copyfile src dst s = (Ok tt, set_data_dir (Some (assoc_set dst content fs)) s).
Proof.
  intros Hd Hsrc. unfold copyfile, bind, read_file, write_file.
  now rewrite Hd, Hsrc, Hd.
Qed.

Lemma add_replication_loop (level : Z) (fs0 : directory) (files : list string) :
  forall fs s,
    data_dir s = Some fs ->
    (forall f1, In f1 files -> str_in "-" f1 = false ->
                assoc_get f1 fs = assoc_get f1 fs0 /\ assoc_get f1 fs0 <> None) ->
    for_each files (fun f1 =>
      if negb (str_in "-" f1) then copyfile f1 (replica_of f1 level) else ret tt) s
    = (Ok tt, set_data_dir (Some (assoc_set_all (copies level fs0 files) fs)) s).
Proof.
  induction files as [|f1 files IH]; intros fs s Hd Hsrc.
  - cbn [for_each copies primaries filter map assoc_set_all].
    unfold ret. f_equal. destruct s; cbn in *. now subst.
  - cbn [for_each]. unfold bind at 1.
    destruct (str_in "-" f1) eqn:Hf1; cbn [negb].
    + unfold ret. unfold copies, primaries. cbn [filter]. rewrite Hf1. cbn [negb].
      apply IH; [exact Hd|]. intros f Hin. apply Hsrc. now right.
    + destruct (Hsrc f1 (or_introl eq_refl) Hf1) as (Heq & Hne).
      destruct (assoc_get f1 fs0) as [c|] eqn:Hc; [|contradiction].
      rewrite (copyfile_run f1 (replica_of f1 level) c fs s Hd Heq).
      rewrite (IH (assoc_set (replica_of f1 level) c fs)); [| reflexivity |].
      * unfold copies, primaries. cbn [filter]. rewrite Hf1. cbn [negb map].
        assert (Hco : content_of fs0 f1 = c)
          by (unfold content_of; now rewrite Hc).
        rewrite Hco. reflexivity.
      * intros f Hin Hf. destruct (Hsrc f (or_intror Hin) Hf) as (Hfeq & Hfne).
        split; [|exact Hfne]. rewrite assoc_get_set_other; [exact Hfeq|].
        intros E. rewrite <- E, replica_of_dash in Hf. discriminate Hf.
Qed.

Lemma replica_of_inj (f1 f2 : string) (level : Z) :
  replica_of f1 level = replica_of f2 level ->
  slice f1 None (Some (-4)) = slice f2 None (Some (-4)).
Proof. unfold replica_of. apply append_inj_l. Qed.

Lemma primaries_in (f1 : string) (files : list string) :
  In f1 (primaries files) <-> In f1 files /\ str_in "-" f1 = false.
Proof.
  unfold primaries. rewrite filter_In.
  destruct (str_in "-" f1); simpl; intuition congruence.
Qed.

Lemma assoc_get_in_keys {V : Type} (k : string) (d : list (string * V)) :
  assoc_get k d <> None -> In k (map fst d).
Proof.
  induction d as [|[k' v'] d IH]; cbn [assoc_get map fst]; [congruence|].
  destruct (String.eqb_spec k' k); [now left | intros H; right; now apply IH].
Qed.

(** [add_replication] in a directory whose files without a dash differ
    before their last four characters (as the shard files [<id>.txt] do):
    the call succeeds at the level [next] that follows the one
    [current_replication] reports; every file without a dash keeps its
    content and has it copied to [<stem>-<next>.txt]; every other file
    that is not such a copy keeps its content; the mapping is unchanged
    and is written to the mapping file. *)
Theorem add_replication_copies (st : state) (fs : directory) :
  data_dir st = Some fs ->
  NoDup (map (fun f1 => slice f1 None (Some (-4))) (primaries (map fst fs))) ->
  exists lvl level st',
    current_replication st = (Ok lvl, st) /\ int lvl = Ok level /\
    add_replication st = (Ok tt, st') /\
    mapping st' = mapping st /\ mapfile st' = Some (mapping st) /\
    (forall f1 content,
        str_in "-" f1 = false ->
        read_file f1 st = (Ok content, st) ->
        read_file f1 st' = (Ok content, st') /\
        read_file (replica_of f1 (level + 1)) st' = (Ok content, st')) /\
    (forall name,
        (forall f1, In f1 (primaries (map fst fs)) ->
                    name <> replica_of f1 (level + 1)) ->
        fst (read_file name st') = fst (read_file name st)).
Proof.
  intros Hd Hnd.
  destruct (current_replication_ok st fs Hd) as (lvl & level & Hlvl & Hint & _).
  exists lvl, level. eexists. split; [exact Hlvl|]. split; [exact Hint|].
  assert (Hkeys : NoDup (map fst (copies (level + 1) fs (map fst fs)))).
  { unfold copies. rewrite map_map. cbn [fst].
    revert Hnd. generalize (primaries (map fst fs)) as l.
    induction l as [|f l IH]; cbn [map]; intros H; [constructor|].
    inversion H as [|? ? Hnotin Hnd']; subst. constructor; [|now apply IH].
    intros Hin. apply Hnotin. apply in_map_iff in Hin as (f' & Hf' & Hin).
    apply in_map_iff. exists f'. split; [|exact Hin]. now apply replica_of_inj in Hf'. }
  split.
  { unfold add_replication, bind at 1, listdir. rewrite Hd.
    unfold bind at 1. rewrite Hlvl.
    unfold bind at 1, lift. rewrite Hint.
    unfold bind at 1.
    change (fun f1 : string =>
              if negb (str_in "-" f1)
              then copyfile f1
                     (slice f1 None (Some (-4)) ++ "-" ++ str (level + 1) ++ ".txt")
              else ret tt)
      with (fun f1 : string =>
              if negb (str_in "-" f1)
              then copyfile f1 (replica_of f1 (level + 1)) else ret tt).
    rewrite (add_replication_loop (level + 1) fs (map fst fs) fs st Hd).
    - reflexivity.
    - intros f1 Hin Hf1. split; [reflexivity|].
      apply in_map_iff in Hin as ([k v] & <- & Hin). cbn [fst].
      clear - Hin. induction fs as [|[k' v'] fs IH]; [contradiction|].
      cbn [assoc_get]. destruct (String.eqb_spec k' k); [discriminate|].
      destruct Hin as [[= -> ->]|Hin]; [contradiction | now apply IH]. }
  cbn [mapping mapfile set_mapfile set_data_dir write_map modify snd].
  split; [reflexivity|]. split; [reflexivity|]. split.
  - intros f1 content Hf1 Hread.
    unfold read_file in *. cbn [data_dir set_mapfile set_data_dir].
    rewrite Hd in Hread.
    destruct (assoc_get f1 fs) as [c|] eqn:Hc; [|discriminate Hread].
    injection Hread as ->. split.
    + rewrite assoc_get_set_all_notin, Hc; [reflexivity|].
      unfold copies. rewrite map_map. cbn [fst]. intros Hin.
      apply in_map_iff in Hin as (f' & Hf' & _).
      rewrite <- Hf', replica_of_dash in Hf1. discriminate Hf1.
    + rewrite (assoc_get_set_all_in _ content); [reflexivity | exact Hkeys |].
      unfold copies. apply in_map_iff. exists f1. split.
      * unfold content_of. now rewrite Hc.
      * apply primaries_in. split; [|exact Hf1].
        apply assoc_get_in_keys. congruence.
  - intros name Hname. unfold read_file.
    cbn [data_dir set_mapfile set_data_dir]. rewrite Hd.
    rewrite assoc_get_set_all_notin; [now destruct (assoc_get name fs)|].
    unfold copies. rewrite map_map. cbn [fst]. intros Hin.
    apply in_map_iff in Hin as (f' & Hf' & Hin).
    now apply (Hname f' Hin).
Qed.

Lemma add_replication_copies_witness :
  exists lvl level st',
    current_replication two_shards = (Ok lvl, two_shards) /\
    int lvl = Ok level /\
    add_replication two_shards = (Ok tt, st') /\
    mapping st' = mapping two_shards /\
    mapfile st' = Some (mapping two_shards) /\
    (forall f1 content,
        str_in "-" f1 = false ->
        read_file f1 two_shards = (Ok content, two_shards) ->
        read_file f1 st' = (Ok content, st') /\
        read_file (replica_of f1 (level + 1)) st' = (Ok content, st')) /\
    (forall name,
        (forall f1,
            In f1 (primaries (map fst [("0.txt", "abc"); ("1.txt", "def")])) ->
            name <> replica_of f1 (level + 1)) ->
        fst (read_file name st') = fst (read_file name two_shards)).
Proof.
  apply (add_replication_copies two_shards [("0.txt", "abc"); ("1.txt", "def")]).
  - reflexivity.
  - vm_compute. repeat constructor; simpl; intuition discriminate.
Defined.

End AddReplication.

(** ** [sync_replication] *)

Section SyncReplication.

Lemma str_in_dash_false (s : string) :
  str_in "-" s = false ->
  all_chars (fun c => negb (Ascii.eqb c "-")) s = true.
Proof.
  induction s as [|c s IH]; [reflexivity|].
  change (str_in "-" (String c s))
    with (prefix "-" (String c s) || str_in "-" s).
  intros H. apply orb_false_iff in H as [H1 H2].
  cbn [all_chars]. rewrite (IH H2), andb_true_r.
  cbn [prefix] in H1. destruct (ascii_dec "-" c) as [<-|Hne].
  - now destruct s.
  - destruct (Ascii.eqb_spec c "-"); [congruence | reflexivity].
Qed.

Lemma primary_no_dash (key : string) :
  str_in "-" key = false -> str_in "-" (key ++ ".txt") = false.
Proof.
  intros H. apply no_dash_not_in. rewrite all_chars_append.
  now rewrite (str_in_dash_false _ H).
Qed.

Lemma replica_dash (key : string) (level : Z) :
  str_in "-" (replica key level) = true.
Proof. apply str_in_dash_mid. Qed.

Lemma names_filter_assoc_set (name c : string) (fs : directory) :
  str_in "-" name = false ->
  filter (str_in "-") (map fst (assoc_set name c fs))
  = filter (str_in "-") (map fst fs).
Proof.
  intros Hn. induction fs as [|[k v] fs IH]; cbn [assoc_set map fst filter].
  - now rewrite Hn.
  - destruct (String.eqb_spec k name) as [->|_]; cbn [map fst filter].
    + reflexivity.
    + now rewrite IH.
Qed.

(** Writing a file whose name has no dash does not change the level. *)
Lemma current_replication_write_primary
      (name c lvl : string) (fs : directory) (s : state) :
  data_dir s = Some fs ->
  str_in "-" name = false ->
  current_replication s = (Ok lvl, s) ->
  current_replication (set_data_dir (Some (assoc_set name c fs)) s)
  = (Ok lvl, set_data_dir (Some (assoc_set name c fs)) s).
Proof.
  intros Hd Hn. unfold current_replication, bind, listdir.
  cbn [data_dir set_data_dir]. rewrite Hd, names_filter_assoc_set by exact Hn.
  unfold lift, max_str. cbn [app]. intros [= <-]. reflexivity.
Qed.

Lemma assoc_set_set {V : Type} (k : string) (v1 v2 : V) (d : list (string * V)) :
  assoc_set k v2 (assoc_set k v1 d) = assoc_set k v2 d.
Proof.
  induction d as [|[k' v'] d IH]; cbn [assoc_set].
  - now rewrite String.eqb_refl.
  - destruct (String.eqb_spec k' k) as [->|Hne]; cbn [assoc_set].
    + now rewrite String.eqb_refl.
    + destruct (String.eqb_spec k' k); [contradiction | now rewrite IH].
Qed.

Lemma for_each_app {A : Type} (l1 l2 : list A) (f : A -> M unit) (s : state) :
  for_each (l1 ++ l2) f s = (for_each l1 f ;; for_each l2 f) s.
Proof.
  revert s; induction l1 as [|x l1 IH]; intros s; [reflexivity|].
  cbn [app for_each]. unfold bind.
  destruct (f x s) as [[[]|e] s1]; [|reflexivity].
  rewrite IH. reflexivity.
Qed.

Lemma replica_not_primary (key key' : string) (level : Z) :
  str_in "-" key' = false -> replica key level <> (key' ++ ".txt")%string.
Proof.
  intros Hk E. apply primary_no_dash in Hk.
  rewrite <- E, replica_dash in Hk. discriminate Hk.
Qed.

(** The inner loop for one key: after [j] copies the primary holds the
    replica of level [j]. *)
Lemma sync_key_loop (key : string) (fs : directory) (s : state) (j : nat) :
  str_in "-" key = false ->
  data_dir s = Some fs ->
  (forall x, 1 <= x <= Z.of_nat j -> assoc_get (replica key x) fs <> None) ->
  for_each (map Z.of_nat (seq 0 j))
           (fun x => copyfile (key ++ "-" ++ str (x + 1) ++ ".txt") (key ++ ".txt")) s
  = (Ok tt,
     match j with
     | O => s
     | S _ => set_data_dir
                (Some (assoc_set (key ++ ".txt")
                                 (content_of fs (replica key (Z.of_nat j))) fs)) s
     end).
Proof.
  intros Hkey Hd. induction j as [|j IH]; intros Hrep; [reflexivity|].
  rewrite seq_S, map_app, for_each_app. unfold bind at 1.
  rewrite IH by (intros x Hx; apply Hrep; lia).
  cbn [Nat.add map for_each]. unfold bind at 1.
  assert (Hj : assoc_get (replica key (Z.of_nat (S j))) fs <> None)
    by (apply Hrep; lia).
  destruct (assoc_get (replica key (Z.of_nat (S j))) fs) as [c|] eqn:Hc;
    [|contradiction].
  assert (Hco : content_of fs (replica key (Z.of_nat (S j))) = c)
    by (unfold content_of; now rewrite Hc).
  rewrite Hco.
  replace (Z.of_nat j + 1) with (Z.of_nat (S j)) by lia.
  change (key ++ "-" ++ str (Z.of_nat (S j)) ++ ".txt")%string
    with (replica key (Z.of_nat (S j))).
  destruct j as [|j].
  - now rewrite (copyfile_run _ _ c fs s Hd Hc).
  - erewrite copyfile_run; [| reflexivity |].
    + unfold ret. now rewrite assoc_set_set.
    + rewrite assoc_get_set_other; [exact Hc|].
      intros E. symmetry in E. now apply replica_not_primary in E.
Qed.

Lemma sync_loop (lvl : string) (level : Z) (fs0 : directory) (keys : list string) :
  0 < level -> int lvl = Ok level ->
  (forall k, In k keys -> str_in "-" k = false) ->
  forall fs s,
    data_dir s = Some fs ->
    current_replication s = (Ok lvl, s) ->
    (forall k x, In k keys -> 1 <= x <= level ->
                 assoc_get (replica k x) fs = assoc_get (replica k x) fs0 /\
                 assoc_get (replica k x) fs0 <> None) ->
    for_each keys (fun key =>
      highest <- current_replication ;;
      level <- lift (int highest) ;;
      for_each (range level)
               (fun x => copyfile (key ++ "-" ++ str (x + 1) ++ ".txt")
                                  (key ++ ".txt"))) s
    = (Ok tt, set_data_dir (Some (assoc_set_all (synced level fs0 keys) fs)) s).
Proof.
  intros Hpos Hint. induction keys as [|k keys IH]; intros Hkeys fs s Hd Hlvl Hrep.
  - cbn [for_each synced map assoc_set_all]. unfold ret. f_equal.
    destruct s; cbn in *. now subst.
  - cbn [for_each]. unfold bind at 1. unfold bind at 1. rewrite Hlvl.
    unfold bind at 1, lift. rewrite Hint. unfold range.
    assert (Hk : str_in "-" k = false) by (apply Hkeys; now left).
    rewrite (sync_key_loop k fs s (Z.to_nat level) Hk Hd).
    2:{ intros x Hx. destruct (Hrep k x (or_introl eq_refl)) as (E & Hne); [lia|].
        now rewrite E. }
    destruct (Z.to_nat level) as [|j] eqn:Ej; [lia|]. rewrite <- Ej, Z2Nat.id by lia.
    assert (Hco : content_of fs (replica k level) = content_of fs0 (replica k level)).
    { unfold content_of.
      destruct (Hrep k level (or_introl eq_refl)) as (E & _); [lia|]. now rewrite E. }
    rewrite Hco.
    rewrite (IH (fun k' H => Hkeys k' (or_intror H))
                (assoc_set (k ++ ".txt") (content_of fs0 (replica k level)) fs)).
    + reflexivity.
    + reflexivity.
    + apply current_replication_write_primary;
        [exact Hd | now apply primary_no_dash | exact Hlvl].
    + intros k' x Hin Hx. destruct (Hrep k' x (or_intror Hin) Hx) as (E & Hne).
      split; [|exact Hne]. rewrite assoc_get_set_other; [exact E|].
      intros E'. symmetry in E'. now apply replica_not_primary in E'.
Qed.

Lemma sync_loop_zero (lvl : string) (keys : list string) (s : state) :
  int lvl = Ok 0 ->
  current_replication s = (Ok lvl, s) ->
  for_each keys (fun key =>
    highest <- current_replication ;;
    level <- lift (int highest) ;;
    for_each (range level)
             (fun x => copyfile (key ++ "-" ++ str (x + 1) ++ ".txt")
                                (key ++ ".txt"))) s
  = (Ok tt, s).
Proof.
  intros Hint Hlvl. induction keys as [|k keys IH]; [reflexivity|].
  cbn [for_each]. unfold bind at 1. unfold bind at 1. rewrite Hlvl.
  unfold bind at 1, lift. rewrite Hint. exact IH.
Qed.

(** [sync_replication] at the level [current_replication] reports, when
    no key of the mapping has a dash and every key has its replicas of
    the levels 1 to that level: the call succeeds; at level 0 it changes
    nothing; above, the primary of every key ends with the content of the
    key's replica of the highest level, whatever it held and whether it
    existed; the replicas, every other file, the mapping, the mapping
    file and the output are unchanged. *)
Theorem sync_replication_overwrites (st : state) (fs : directory)
        (lvl : string) (level : Z) :
  data_dir st = Some fs ->
  current_replication st = (Ok lvl, st) ->
  int lvl = Ok level ->
  (forall k, In k (map fst (mapping st)) -> str_in "-" k = false) ->
  (forall k x, In k (map fst (mapping st)) -> 1 <= x <= level ->
               exists content, read_file (replica k x) st = (Ok content, st)) ->
  exists st',
    sync_replication st = (Ok tt, st') /\
    mapping st' = mapping st /\ mapfile st' = mapfile st /\
    stdout st' = stdout st /\
    (level = 0 -> st' = st) /\
    (forall k, In k (map fst (mapping st)) -> 0 < level ->
               fst (read_file (k ++ ".txt") st')
               = fst (read_file (replica k level) st)) /\
    (forall name,
        (forall k, In k (map fst (mapping st)) -> name <> (k ++ ".txt")%string) ->
        fst (read_file name st') = fst (read_file name st)).
Proof.
  intros Hd Hlvl Hint Hkeys Hrep.
  set (keys := nodup string_dec (map fst (mapping st))).
  assert (Hin : forall k, In k keys <-> In k (map fst (mapping st)))
    by (intros k; apply nodup_In).
  assert (Hlevel : 0 <= level).
  { destruct (current_replication_ok st fs Hd) as (lvl' & level' & H1 & H2 & H3).
    rewrite Hlvl in H1. injection H1 as <-. rewrite Hint in H2.
    now injection H2 as <-. }
  unfold sync_replication, bind at 1, gets. fold keys.
  destruct (Z.eq_dec level 0) as [Hz|Hnz].
  - subst level. rewrite (sync_loop_zero lvl keys st Hint Hlvl).
    exists st. repeat split; try reflexivity. intros k _ H. lia.
  - assert (Hrep' : forall k x, In k keys -> 1 <= x <= level ->
               assoc_get (replica k x) fs = assoc_get (replica k x) fs /\
               assoc_get (replica k x) fs <> None).
    { intros k x Hk Hx. split; [reflexivity|].
      destruct (Hrep k x (proj1 (Hin k) Hk) Hx) as (c & Hc).
      unfold read_file in Hc. rewrite Hd in Hc.
      destruct (assoc_get (replica k x) fs); [discriminate | discriminate Hc]. }
    rewrite (sync_loop lvl level fs keys) with (fs := fs);
      [| lia | exact Hint | intros k Hk; apply Hkeys, Hin, Hk
       | exact Hd | exact Hlvl | exact Hrep'].
    eexists. split; [reflexivity|].
    split; [reflexivity|]. split; [reflexivity|]. split; [reflexivity|].
    split; [intros Hz; contradiction|].
    assert (Hnd : NoDup (map fst (synced level fs keys))).
    { unfold synced. rewrite map_map. cbn [fst].
      apply NoDup_map_inj; [|apply NoDup_nodup].
      intros a b. apply append_inj_l. }
    split.
    + intros k Hk _. unfold read_file. cbn [data_dir set_data_dir]. rewrite Hd.
      rewrite (assoc_get_set_all_in _ (content_of fs (replica k level))).
      * unfold content_of.
        destruct (Hrep' k level (proj2 (Hin k) Hk)) as (_ & Hne); [lia|].
        now destruct (assoc_get (replica k level) fs).
      * exact Hnd.
      * unfold synced. apply in_map_iff. exists k.
        split; [reflexivity | now apply Hin].
    + intros name Hname. unfold read_file. cbn [data_dir set_data_dir].
      rewrite Hd, assoc_get_set_all_notin; [now destruct (assoc_get name fs)|].
      unfold synced. rewrite map_map. cbn [fst]. intros H.
      apply in_map_iff in H as (k & Hk & Hkin).
      apply (Hname k); [now apply Hin | now symmetry].
Qed.

Lemma sync_replication_overwrites_witness :
  exists st',
    sync_replication two_shards_replicated = (Ok tt, st') /\
    mapping st' = mapping two_shards_replicated /\
    mapfile st' = mapfile two_shards_replicated /\
    stdout st' = stdout two_shards_replicated /\
    (1 = 0 -> st' = two_shards_replicated) /\
    (forall k, In k (map fst (mapping two_shards_replicated)) -> 0 < 1 ->
               fst (read_file (k ++ ".txt") st')
               = fst (read_file (replica k 1) two_shards_replicated)) /\
    (forall name,
        (forall k, In k (map fst (mapping two_shards_replicated)) ->
                   name <> (k ++ ".txt")%string) ->
        fst (read_file name st') = fst (read_file name two_shards_replicated)).
Proof.
  apply (sync_replication_overwrites two_shards_replicated
           [("0.txt", "abc"); ("1.txt", "def");
            ("0-1.txt", "abc"); ("1-1.txt", "def")] "1" 1).
  - reflexivity.
  - reflexivity.
  - reflexivity.
  - intros k [<-|[<-|[]]]; reflexivity.
  - intros k x Hk Hx. assert (x = 1) by lia. subst x.
    destruct Hk as [<-|[<-|[]]]; eexists; reflexivity.
Defined.

End SyncReplication.

(** ** Adding and removing the first level *)

Section FirstLevel.

Lemma all_chars_substring (p : ascii -> bool) (s : string) :
  all_chars p s = true -> forall n m, all_chars p (substring n m s) = true.
Proof.
  induction s as [|c s IH]; intros H n m.
  - now rewrite substring_empty.
  - cbn [all_chars] in H. apply andb_true_iff in H as [H1 H2].
    destruct n as [|n]; cbn [substring].
    + destruct m as [|m]; [reflexivity|].
      cbn [all_chars]. now rewrite H1, IH.
    + now apply IH.
Qed.

Lemma findall_skip_no_dash (a r : string) :
  all_chars (fun c => negb (Ascii.eqb c "-")) a = true ->
  findall_dash_digits_from None (a ++ r) = findall_dash_digits_from None r.
Proof.
  induction a as [|c a IH]; [reflexivity|].
  cbn [all_chars append findall_dash_digits_from].
  intros H. apply andb_true_iff in H as [H1 H2].
  destruct (Ascii.eqb c "-"); [discriminate H1 | now apply IH].
Qed.

Lemma findall_first_replica (f1 : string) :
  str_in "-" f1 = false -> findall_dash_digits (replica_of f1 1) = ["1"%string].
Proof.
  intros H. unfold findall_dash_digits, replica_of.
  rewrite findall_skip_no_dash; [reflexivity|].
  unfold slice. apply all_chars_substring. now apply str_in_dash_false.
Qed.

Lemma str_in_app_r (n a r : string) :
  str_in n r = true -> str_in n (a ++ r) = true.
Proof.
  intros H. induction a as [|c a IH]; [exact H|].
  change (str_in n (String c a ++ r))
    with (prefix n (String c (a ++ r)) || str_in n (a ++ r)).
  rewrite IH. apply orb_true_r.
Qed.

Lemma first_replica_matches (f1 : string) :
  str_in ("-" ++ "1") (replica_of f1 1) = true.
Proof. unfold replica_of. now apply str_in_app_r. Qed.

Lemma no_dash_no_level (h name : string) :
  str_in "-" name = false -> str_in ("-" ++ h) name = false.
Proof.
  intros H. destruct (str_in ("-" ++ h) name) eqn:E; [|reflexivity].
  apply str_in_dash_weaken in E. congruence.
Qed.

Lemma assoc_get_app_notin {V : Type} (k : string) (a b : list (string * V)) :
  ~ In k (map fst a) -> assoc_get k (a ++ b) = assoc_get k b.
Proof.
  induction a as [|[k' v'] a IH]; cbn [app map fst assoc_get In]; [reflexivity|].
  intros H. destruct (String.eqb_spec k' k); [tauto | apply IH; tauto].
Qed.

Lemma assoc_del_notin {V : Type} (k : string) (a : list (string * V)) :
  ~ In k (map fst a) -> assoc_del k a = a.
Proof.
  unfold assoc_del.
  induction a as [|[k' v'] a IH]; cbn [map fst filter In]; [reflexivity|].
  intros H. destruct (String.eqb_spec k' k); [tauto|].
  cbn [negb]. f_equal. apply IH. tauto.
Qed.

Lemma os_remove_run (name content : string) (fs : directory) (s : state) :
  data_dir s = Some fs ->
  assoc_get name fs = Some content ->
  os_remove name s = (Ok tt, set_data_dir (Some (assoc_del name fs)) s).
Proof. intros Hd Hc. unfold os_remove. now rewrite Hd, Hc. Qed.

Lemma remove_loop_skip (h : string) (names : list string) (s : state) :
  (forall f, In f names -> str_in "-" f = false) ->
  for_each names
           (fun f => if str_in ("-" ++ h) f then os_remove f else ret tt) s
  = (Ok tt, s).
Proof.
  induction names as [|f names IH]; intros H; [reflexivity|].
  cbn [for_each]. unfold bind.
  rewrite (no_dash_no_level h f) by (apply H; now left).
  apply IH. intros f' Hf'. apply H. now right.
Qed.

Lemma remove_loop_targets (h : string) (fs : directory) (T : directory) :
  forall s,
    NoDup (map fst T) ->
    (forall t, In t (map fst T) ->
               str_in ("-" ++ h) t = true /\ ~ In t (map fst fs)) ->
    data_dir s = Some (fs ++ T) ->
    for_each (map fst T)
             (fun f => if str_in ("-" ++ h) f then os_remove f else ret tt) s
    = (Ok tt, set_data_dir (Some fs) s).
Proof.
  induction T as [|[t c] T IH]; intros s Hnd HT Hd.
  - cbn [map for_each]. unfold ret. f_equal.
    rewrite List.app_nil_r in Hd. destruct s; cbn in *. now subst.
  - cbn [map fst for_each]. unfold bind.
    destruct (HT t (or_introl eq_refl)) as (Ht & Hfs). rewrite Ht.
    inversion Hnd as [|? ? Hnotin Hnd']; subst.
    rewrite (os_remove_run t c (fs ++ (t, c) :: T) s Hd).
    2:{ rewrite assoc_get_app_notin by exact Hfs.
        cbn [assoc_get]. now rewrite String.eqb_refl. }
    rewrite (IH (set_data_dir (Some (assoc_del t (fs ++ (t, c) :: T))) s)).
    + reflexivity.
    + exact Hnd'.
    + intros t' Ht'. apply HT. now right.
    + cbn [data_dir set_data_dir]. f_equal.
      unfold assoc_del. rewrite filter_app. cbn [filter fst].
      rewrite String.eqb_refl. cbn [negb].
      fold (assoc_del t fs). fold (assoc_del t T).
      now rewrite !assoc_del_notin.
Qed.

Lemma fold_max_ones (l : list string) (x : string) :
  (forall y, In y l -> y = "1"%string) -> x = "1"%string \/ (x = "0"%string /\ l <> []) ->
  fold_left (fun m s => if String.ltb m s then s else m) l x = "1"%string.
Proof.
  revert x; induction l as [|y l IH]; intros x Hl Hx.
  - destruct Hx as [->|[_ H]]; [reflexivity | contradiction].
  - cbn [fold_left]. rewrite (Hl y (or_introl eq_refl)).
    apply IH; [intros y' Hy'; apply Hl; now right|].
    left. destruct Hx as [->|[-> _]]; reflexivity.
Qed.

Lemma add_replication_run (st : state) (fs : directory) (lvl : string) (level : Z) :
  data_dir st = Some fs ->
  current_replication st = (Ok lvl, st) ->
  int lvl = Ok level ->
  add_replication st
  = (Ok tt,
     set_mapfile (Some (mapping st))
       (set_data_dir
          (Some (assoc_set_all (copies (level + 1) fs (map fst fs)) fs)) st)).
Proof.
  intros Hd Hlvl Hint.
  unfold add_replication, bind at 1, listdir. rewrite Hd.
  unfold bind at 1. rewrite Hlvl.
  unfold bind at 1, lift. rewrite Hint.
  unfold bind at 1.
  change (fun f1 : string =>
            if negb (str_in "-" f1)
            then copyfile f1
                   (slice f1 None (Some (-4)) ++ "-" ++ str (level + 1) ++ ".txt")
            else ret tt)
    with (fun f1 : string =>
            if negb (str_in "-" f1)
            then copyfile f1 (replica_of f1 (level + 1)) else ret tt).
  rewrite (add_replication_loop (level + 1) fs (map fst fs) fs st Hd);
    [reflexivity|].
  intros f1 Hin Hf1. split; [reflexivity|].
  apply in_map_iff in Hin as ([k v] & <- & Hin). cbn [fst].
  clear - Hin. induction fs as [|[k' v'] fs IH]; [contradiction|].
  cbn [assoc_get]. destruct (String.eqb_spec k' k); [discriminate|].
  destruct Hin as [[= -> ->]|Hin]; [contradiction | now apply IH].
Qed.

Lemma copies_NoDup (level : Z) (fs : directory) (files : list string) :
  NoDup (map (fun f1 => slice f1 None (Some (-4))) (primaries files)) ->
  NoDup (map fst (copies level fs files)).
Proof.
  unfold copies. rewrite map_map. cbn [fst].
  generalize (primaries files) as l.
  induction l as [|f l IH]; cbn [map]; intros H; [constructor|].
  inversion H as [|? ? Hnotin Hnd']; subst. constructor; [|now apply IH].
  intros Hin. apply Hnotin. apply in_map_iff in Hin as (f' & Hf' & Hin).
  apply in_map_iff. exists f'. split; [|exact Hin]. now apply replica_of_inj in Hf'.
Qed.

Lemma copies_names (level : Z) (fs : directory) (files : list string) (t : string) :
  In t (map fst (copies level fs files)) ->
  exists f1, t = replica_of f1 level /\ In f1 files /\ str_in "-" f1 = false.
Proof.
  unfold copies. rewrite map_map. cbn [fst]. intros H.
  apply in_map_iff in H as (f1 & <- & Hin). apply primaries_in in Hin.
  now exists f1.
Qed.

Lemma filter_none {A : Type} (p : A -> bool) (l : list A) :
  (forall x, In x l -> p x = false) -> filter p l = [].
Proof.
  induction l as [|x l IH]; intros H; [reflexivity|].
  cbn [filter]. rewrite (H x (or_introl eq_refl)). apply IH.
  intros y Hy. apply H. now right.
Qed.

(** With the first replicas in place the level is 1. *)
Lemma level_after_first (fs : directory) (s : state) :
  (forall name, In name (map fst fs) -> str_in "-" name = false) ->
  copies 1 fs (map fst fs) <> [] ->
  data_dir s = Some (fs ++ copies 1 fs (map fst fs)) ->
  current_replication s = (Ok "1"%string, s).
Proof.
  intros Hfs Hne Hd. unfold current_replication, bind, listdir. rewrite Hd.
  unfold lift, max_str. cbn [app]. do 2 f_equal.
  rewrite map_app, filter_app, (filter_none _ _ Hfs). cbn [app].
  set (T := copies 1 fs (map fst fs)) in *.
  assert (HT : forall t, In t (map fst T) -> findall_dash_digits t = ["1"%string] /\
                                            str_in "-" t = true).
  { intros t Ht. apply copies_names in Ht as (f1 & -> & _ & Hf1).
    split; [now apply findall_first_replica | apply replica_of_dash]. }
  apply fold_max_ones.
  - intros y Hy. apply in_flat_map in Hy as (t & Ht & Hy).
    apply filter_In in Ht as [Ht _]. destruct (HT t Ht) as (E & _).
    rewrite E in Hy. destruct Hy as [<-|[]]. reflexivity.
  - right. split; [reflexivity|].
    destruct T as [|[t c] T']; [contradiction|].
    destruct (HT t (or_introl eq_refl)) as (E & Hdash).
    cbn [map fst filter]. rewrite Hdash. cbn [flat_map]. rewrite E. discriminate.
Qed.

(** In a directory where no name has a dash and the names differ before
    their last four characters, [remove_replication] undoes
    [add_replication]: after the two calls the directory is exactly what
    it was, and the only change to the state is that the mapping has been
    written to the mapping file. *)
Theorem add_then_remove_replication (st : state) (fs : directory) :
  data_dir st = Some fs ->
  (forall name, In name (map fst fs) -> str_in "-" name = false) ->
  NoDup (map (fun f1 => slice f1 None (Some (-4))) (primaries (map fst fs))) ->
  (add_replication ;; remove_replication) st
  = (Ok tt, set_mapfile (Some (mapping st)) st).
Proof.
  intros Hd Hfs Hnd.
  assert (Hlvl : current_replication st = (Ok "0"%string, st)).
  { unfold current_replication, bind, listdir. rewrite Hd.
    now rewrite (filter_none _ _ Hfs). }
  unfold bind at 1.
  rewrite (add_replication_run st fs "0" 0 Hd Hlvl eq_refl).
  change (0 + 1) with 1.
  set (T := copies 1 fs (map fst fs)).
  assert (HTnd : NoDup (map fst T)) by now apply copies_NoDup.
  assert (HT : forall t, In t (map fst T) ->
                         str_in ("-" ++ "1") t = true /\ ~ In t (map fst fs)).
  { intros t Ht. apply copies_names in Ht as (f1 & -> & _ & Hf1).
    split; [apply first_replica_matches|].
    intros Hin. apply Hfs in Hin. rewrite replica_of_dash in Hin. discriminate. }
  rewrite assoc_set_all_fresh;
    [| exact HTnd | intros t Ht; now apply HT].
  set (s1 := set_mapfile (Some (mapping st)) (set_data_dir (Some (fs ++ T)) st)).
  assert (Hd1 : data_dir s1 = Some (fs ++ T)) by reflexivity.
  assert (Hfinal : set_data_dir (Some fs) s1 = set_mapfile (Some (mapping st)) st).
  { subst s1. destruct st; cbn in *. now subst. }
  unfold remove_replication, bind at 1.
  destruct T as [|[t c] T'] eqn:ET.
  - (* nothing to copy: no file at all *)
    destruct (current_replication_ok s1 _ Hd1) as (h & lv & Hh & _).
    rewrite Hh. unfold bind at 1, listdir. rewrite Hd1.
    rewrite List.app_nil_r, remove_loop_skip by exact Hfs.
    rewrite <- Hfinal. f_equal. subst s1. rewrite List.app_nil_r.
    destruct st; cbn in *. now subst.
  - rewrite <- ET in *.
    rewrite (level_after_first fs s1 Hfs) by (subst T; congruence || exact Hd1).
    unfold bind at 1, listdir. rewrite Hd1.
    rewrite map_app, for_each_app. unfold bind at 1.
    rewrite remove_loop_skip by exact Hfs.
    rewrite (remove_loop_targets "1" fs T s1 HTnd HT Hd1).
    now rewrite Hfinal.
Qed.

Lemma add_then_remove_replication_witness :
  (add_replication ;; remove_replication) two_shards
  = (Ok tt, set_mapfile (Some (mapping two_shards)) two_shards).
Proof.
  apply (add_then_remove_replication two_shards
           [("0.txt", "abc"); ("1.txt", "def")]).
  - reflexivity.
  - intros name [<-|[<-|[]]]; reflexivity.
  - vm_compute. repeat constructor; simpl; intuition discriminate.
Defined.

End FirstLevel.

(** ** [get_shard_data] *)

Section ShardData.
Variable format_keys : list string -> string.

Lemma str_nonempty (z : Z) : str z <> "".
Proof.
  unfold str. destruct (Z.to_int z) as [d|d]; destruct d; discriminate.
Qed.

(** After [build_shards] has built, [get_shard_data] finds a shard only
    under the string of its id: with [str(i)] it returns the text
    [Shard i: {'start': ..., 'end': ...}] of the entry written for the
    piece; with the integer [i] it returns the whole mapping when [i] is 0
    and the invalid-id message otherwise, although shard [i] exists.  The
    state is unchanged. *)
Theorem get_shard_data_after_build (count : Z) (data : string) (st st' : state) :
  build_shards count data st = (Ok None, st') ->
  exists parts,
    _generate_sharded_data count data = Ok parts /\
    forall (i : nat) (shard : string),
      nth_error parts i = Some shard ->
      get_shard_data format_keys (ArgStr (str (Z.of_nat i))) st'
      = (Ok (Message ("Shard " ++ str (Z.of_nat i)
                      ++ ": {'start': " ++ str (Z.of_nat i * len shard)
                      ++ ", 'end': " ++ str ((Z.of_nat i + 1) * len shard)
                      ++ "}")), st') /\
      get_shard_data format_keys (ArgInt (Z.of_nat i)) st'
      = (Ok (if Z.of_nat i =? 0
             then AllShards (mapping st')
             else Message ("Invalid shard ID. Valid shard IDs: "
                           ++ format_keys (map fst (mapping st')))), st').
Proof.
  intros Hrun.
  destruct (build_shards_inv _ _ _ _ Hrun) as (Hm & parts & Hgen & ->).
  exists parts. split; [exact Hgen|]. intros i shard Hnth.
  pose proof (entry_after_write_shards parts i shard st Hm Hnth) as He.
  split.
  - unfold get_shard_data. cbn [falsy].
    destruct (String.eqb_spec (str (Z.of_nat i)) "") as [E|_];
      [now apply str_nonempty in E|].
    unfold bind, gets, ret. cbn [mapping_get].
    change (mapping (set_mapfile
                       (Some (mapping (after_write_shards (enumerate parts) st)))
                       (after_write_shards (enumerate parts) st)))
      with (mapping (after_write_shards (enumerate parts) st)).
    rewrite He. reflexivity.
  - unfold get_shard_data. cbn [falsy].
    destruct (Z.of_nat i =? 0); reflexivity.
Qed.

End ShardData.

Lemma get_shard_data_after_build_witness :
  exists parts,
    _generate_sharded_data 3 "abcdefgh" = Ok parts /\
    forall (i : nat) (shard : string),
      nth_error parts i = Some shard ->
      get_shard_data (String.concat ", ") (ArgStr (str (Z.of_nat i)))
                     (exec (build_shards 3 "abcdefgh") fresh)
      = (Ok (Message ("Shard " ++ str (Z.of_nat i)
                      ++ ": {'start': " ++ str (Z.of_nat i * len shard)
                      ++ ", 'end': " ++ str ((Z.of_nat i + 1) * len shard)
                      ++ "}")), exec (build_shards 3 "abcdefgh") fresh) /\
      get_shard_data (String.concat ", ") (ArgInt (Z.of_nat i))
                     (exec (build_shards 3 "abcdefgh") fresh)
      = (Ok (if Z.of_nat i =? 0
             then AllShards (mapping (exec (build_shards 3 "abcdefgh") fresh))
             else Message ("Invalid shard ID. Valid shard IDs: "
                           ++ String.concat ", "
                                (map fst (mapping (exec (build_shards 3 "abcdefgh")
                                                        fresh))))),
         exec (build_shards 3 "abcdefgh") fresh).
Proof.
  apply (get_shard_data_after_build (String.concat ", ") 3 "abcdefgh" fresh). reflexivity.
Defined.

(** ** Replication levels below ten *)

Section Levels.

Lemma max_digit_step (a b : nat) :
  (a <= 9)%nat -> (b <= 9)%nat ->
  (if String.ltb (str (Z.of_nat a)) (str (Z.of_nat b))
   then str (Z.of_nat b) else str (Z.of_nat a))
  = str (Z.of_nat (Nat.max a b)).
Proof.
  intros Ha Hb.
  do 10 (destruct a as [|a];
         [do 10 (destruct b as [|b]; [reflexivity|]); lia|]).
  lia.
Qed.

(** Over one-digit levels [max] on the strings is [max] on the numbers. *)
Lemma fold_max_digits (L : nat) (l : list string) :
  (L <= 9)%nat ->
  forall a,
    (a <= L)%nat ->
    (forall y, In y l -> exists x, (x <= L)%nat /\ y = str (Z.of_nat x)) ->
    a = L \/ In (str (Z.of_nat L)) l ->
    fold_left (fun m s => if String.ltb m s then s else m) l (str (Z.of_nat a))
    = str (Z.of_nat L).
Proof.
  intros HL. induction l as [|y l IH]; intros a Ha Hl Htop.
  - destruct Htop as [->|[]]. reflexivity.
  - cbn [fold_left].
    destruct (Hl y (or_introl eq_refl)) as (x & Hx & ->).
    rewrite max_digit_step by lia.
    apply IH; [lia | intros y' Hy'; apply Hl; now right |].
    destruct Htop as [->|[E|Hin]].
    + left. lia.
    + left. apply str_inj in E. lia.
    + now right.
Qed.

Lemma findall_digits_then_dot (ds : string) :
  all_chars is_digit ds = true ->
  forall acc,
    (acc ++ ds)%string <> ""%string ->
    findall_dash_digits_from (Some acc) (ds ++ ".txt") = [(acc ++ ds)%string].
Proof.
  induction ds as [|c ds IH]; intros Hd acc Hne.
  - rewrite append_empty_r in *. destruct acc; [contradiction | reflexivity].
  - cbn [all_chars] in Hd. apply andb_true_iff in Hd as [Hc Hds].
    cbn [append findall_dash_digits_from]. rewrite Hc.
    rewrite IH by (exact Hds || (rewrite append_assoc; destruct acc; discriminate)).
    now rewrite append_assoc.
Qed.

Lemma str_no_dash (i : nat) :
  all_chars (fun c => negb (Ascii.eqb c "-")) (str (Z.of_nat i)) = true.
Proof. exact (all_chars_weaken _ _ _ digit_not_dash (digits_of_str i)). Qed.

Lemma str_key_no_dash (i : nat) : str_in "-" (str (Z.of_nat i)) = false.
Proof. apply no_dash_not_in, str_no_dash. Qed.

(** The digit run of a replica's name is its level. *)
Lemma findall_replica (i x : nat) :
  findall_dash_digits (replica (str (Z.of_nat i)) (Z.of_nat x))
  = [str (Z.of_nat x)].
Proof.
  unfold findall_dash_digits, replica.
  rewrite findall_skip_no_dash by apply str_no_dash.
  cbn [append findall_dash_digits_from Ascii.eqb Bool.eqb].
  rewrite findall_digits_then_dot; [reflexivity | apply digits_of_str |].
  cbn [append]. apply str_nonempty.
Qed.

Lemma replicated_dash (n L : nat) (fs : directory) (name : string) :
  replicated n L fs ->
  In name (map fst fs) ->
  (str_in "-" name = false /\
   exists i, (i < n)%nat /\ name = (str (Z.of_nat i) ++ ".txt")%string) \/
  (str_in "-" name = true /\
   exists i x, (i < n)%nat /\ (1 <= x <= L)%nat /\
               name = replica (str (Z.of_nat i)) (Z.of_nat x)).
Proof.
  intros [_ Hnames] Hin. apply Hnames in Hin as [(i & Hi & ->)|(i & x & Hi & Hx & ->)].
  - left. split; [apply shard_file_no_dash | now exists i].
  - right. split; [apply replica_dash | now exists i, x].
Qed.

(** In a replicated directory of at least one shard the level is read
    back right as long as it has one digit. *)
Lemma replicated_level (n L : nat) (fs : directory) (s : state) :
  replicated n L fs -> (0 < n)%nat -> (L <= 9)%nat ->
  data_dir s = Some fs ->
  current_replication s = (Ok (str (Z.of_nat L)), s).
Proof.
  intros Hrep Hn HL Hd. unfold current_replication, bind, listdir. rewrite Hd.
  unfold lift, max_str. cbn [app]. do 2 f_equal.
  apply (fold_max_digits L _ HL 0%nat); [lia | |].
  - intros y Hy. apply in_flat_map in Hy as (name & Hname & Hy).
    apply filter_In in Hname as [Hin Hdash].
    destruct (replicated_dash _ _ _ _ Hrep Hin)
      as [(Hno & _)|(_ & i & x & Hi & Hx & ->)]; [congruence|].
    rewrite findall_replica in Hy. destruct Hy as [<-|[]].
    exists x. split; [lia | reflexivity].
  - destruct L as [|L]; [now left | right].
    apply in_flat_map. exists (replica (str (Z.of_nat 0)) (Z.of_nat (S L))).
    split; [|rewrite findall_replica; now left].
    apply filter_In. split; [|apply replica_dash].
    apply (proj2 Hrep). right. exists 0%nat, (S L). repeat split; lia.
Qed.

End Levels.

(** ** One more level *)

Section NextLevel.

Lemma substring_0_app (a b : string) :
  substring 0 (String.length a) (a ++ b) = a.
Proof.
  induction a as [|c a IH]; cbn [String.length append substring].
  - now destruct b.
  - now rewrite IH.
Qed.

(** [f1[:-4]] on the file of a key is the key. *)
Lemma slice_drop_txt (k : string) : slice (k ++ ".txt") None (Some (-4)) = k.
Proof.
  unfold slice, clamp_index, len. rewrite length_append.
  cbn [String.length]. change (-4 <? 0) with true. cbv iota.
  rewrite Z.max_l by lia.
  replace (Z.to_nat (-4 + Z.of_nat (String.length k + 4) - 0))
    with (String.length k) by lia.
  apply substring_0_app.
Qed.

Lemma replica_of_shard (i : nat) (level : Z) :
  replica_of (str (Z.of_nat i) ++ ".txt") level = replica (str (Z.of_nat i)) level.
Proof. unfold replica_of, replica. now rewrite slice_drop_txt. Qed.

Lemma dash_split_inj (a a' r r' : string) :
  all_chars (fun c => negb (Ascii.eqb c "-")) a = true ->
  all_chars (fun c => negb (Ascii.eqb c "-")) a' = true ->
  (a ++ String "-" r)%string = (a' ++ String "-" r')%string ->
  a = a' /\ r = r'.
Proof.
  revert a'; induction a as [|c a IH]; intros [|c' a'] Ha Ha' E;
    cbn [append all_chars] in *.
  - now injection E as ->.
  - injection E as <- _. discriminate Ha'.
  - injection E as -> _. discriminate Ha.
  - injection E as <- E.
    apply andb_true_iff in Ha as [_ Ha]. apply andb_true_iff in Ha' as [_ Ha'].
    destruct (IH a' Ha Ha' E) as [-> ->]. now split.
Qed.

Lemma replica_inj (i i' x x' : nat) :
  replica (str (Z.of_nat i)) (Z.of_nat x) = replica (str (Z.of_nat i')) (Z.of_nat x') ->
  i = i' /\ x = x'.
Proof.
  unfold replica. cbn [append]. intros E.
  apply dash_split_inj in E as [Ei Ex]; try apply str_no_dash.
  apply str_inj in Ei. apply shard_file_inj in Ex. lia.
Qed.

Lemma replicated_primaries (n L : nat) (fs : directory) (f1 : string) :
  replicated n L fs ->
  (In f1 (primaries (map fst fs)) <->
   exists i, (i < n)%nat /\ f1 = (str (Z.of_nat i) ++ ".txt")%string).
Proof.
  intros Hrep. rewrite primaries_in. split.
  - intros [Hin Hno].
    destruct (replicated_dash _ _ _ _ Hrep Hin) as [(_ & H)|(Hd & _)];
      [exact H | congruence].
  - intros (i & Hi & ->). split; [|apply shard_file_no_dash].
    apply (proj2 Hrep). left. now exists i.
Qed.

Lemma NoDup_map_inj_in {A B : Type} (f : A -> B) (l : list A) :
  (forall a b, In a l -> In b l -> f a = f b -> a = b) ->
  NoDup l -> NoDup (map f l).
Proof.
  intros Hinj Hnd. induction Hnd as [|a l Hnotin Hnd IH]; cbn [map]; constructor.
  - intros Hin. apply in_map_iff in Hin as (b & Hb & Hinb).
    apply Hnotin. rewrite (Hinj a b); [exact Hinb | now left | now right | congruence].
  - apply IH. intros x y Hx Hy. apply Hinj; now right.
Qed.

Lemma replicated_stems_NoDup (n L : nat) (fs : directory) :
  replicated n L fs ->
  NoDup (map (fun f1 => slice f1 None (Some (-4))) (primaries (map fst fs))).
Proof.
  intros Hrep. apply NoDup_map_inj_in.
  - intros a b Ha Hb E.
    apply (replicated_primaries _ _ _ _ Hrep) in Ha as (i & _ & ->).
    apply (replicated_primaries _ _ _ _ Hrep) in Hb as (j & _ & ->).
    rewrite !slice_drop_txt in E. now rewrite E.
  - unfold primaries. apply NoDup_filter. exact (proj1 Hrep).
Qed.

Lemma in_keys_assoc_get {V : Type} (k : string) (d : list (string * V)) :
  In k (map fst d) -> assoc_get k d <> None.
Proof.
  induction d as [|[k' v'] d IH]; cbn [map fst In assoc_get]; [contradiction|].
  destruct (String.eqb_spec k' k); [discriminate|].
  intros [E|Hin]; [contradiction | now apply IH].
Qed.

Lemma assoc_get_app_in {V : Type} (k : string) (a b : list (string * V)) :
  In k (map fst a) -> assoc_get k (a ++ b) = assoc_get k a.
Proof.
  induction a as [|[k' v'] a IH]; cbn [map fst In app assoc_get]; [contradiction|].
  destruct (String.eqb_spec k' k); [reflexivity|].
  intros [E|Hin]; [contradiction | now apply IH].
Qed.

(** From a directory with the primaries of [n >= 1] shards and their
    replicas of the levels 1 to [L], with [L] below 9, [add_replication]
    adds exactly the level [L + 1]: every file there was keeps its
    content, each shard gets the replica [<id>-<L+1>.txt] with the content
    of its primary, nothing else appears, and [current_replication], which
    returned [L] before the call, returns [L + 1] after it. *)
Theorem add_replication_next_level (n L : nat) (st : state) (fs : directory) :
  data_dir st = Some fs -> replicated n L fs -> (0 < n)%nat -> (L < 9)%nat ->
  exists st' fs',
    current_replication st = (Ok (str (Z.of_nat L)), st) /\
    add_replication st = (Ok tt, st') /\
    data_dir st' = Some fs' /\
    replicated n (S L) fs' /\
    current_replication st' = (Ok (str (Z.of_nat L + 1)), st') /\
    (forall name, In name (map fst fs) ->
                  assoc_get name fs' = assoc_get name fs) /\
    (forall i, (i < n)%nat ->
               assoc_get (replica (str (Z.of_nat i)) (Z.of_nat L + 1)) fs'
               = assoc_get (str (Z.of_nat i) ++ ".txt") fs).
Proof.
  intros Hd Hrep Hn HL.
  assert (Hlvl : current_replication st = (Ok (str (Z.of_nat L)), st))
    by (apply (replicated_level n L fs); (assumption || lia)).
  set (T := copies (Z.of_nat L + 1) fs (map fst fs)).
  assert (HTnd : NoDup (map fst T))
    by (apply copies_NoDup, (replicated_stems_NoDup n L), Hrep).
  assert (HT : forall t, In t (map fst T) <->
                         exists i, (i < n)%nat /\
                                   t = replica (str (Z.of_nat i)) (Z.of_nat (S L))).
  { intros t. unfold T, copies. rewrite map_map. cbn [fst]. rewrite in_map_iff.
    replace (Z.of_nat L + 1) with (Z.of_nat (S L)) by lia. split.
    - intros (f1 & <- & Hf1).
      apply (replicated_primaries _ _ _ _ Hrep) in Hf1 as (i & Hi & ->).
      exists i. split; [exact Hi | apply replica_of_shard].
    - intros (i & Hi & ->). exists (str (Z.of_nat i) ++ ".txt")%string.
      split; [apply replica_of_shard|].
      apply (replicated_primaries _ _ _ _ Hrep). now exists i. }
  assert (Hfresh : forall t, In t (map fst T) -> ~ In t (map fst fs)).
  { intros t Ht Hin. apply HT in Ht as (i & Hi & ->).
    apply (proj2 Hrep) in Hin as [(j & _ & E)|(j & x & _ & Hx & E)].
    - pose proof (replica_dash (str (Z.of_nat i)) (Z.of_nat (S L))) as Hdash.
      rewrite E, shard_file_no_dash in Hdash. discriminate Hdash.
    - apply replica_inj in E. lia. }
  exists (set_mapfile (Some (mapping st)) (set_data_dir (Some (fs ++ T)) st)),
         (fs ++ T).
  assert (Hrep' : replicated n (S L) (fs ++ T)).
  { split.
    - rewrite map_app. apply NoDup_app; [exact (proj1 Hrep) | exact HTnd |].
      intros a Ha Ha'. now apply (Hfresh a).
    - intros name. rewrite map_app, in_app_iff, HT, (proj2 Hrep name). split.
      + intros [[H|(i & x & Hi & Hx & ->)]|(i & Hi & ->)].
        * now left.
        * right. exists i, x. repeat split; (assumption || lia).
        * right. exists i, (S L). repeat split; (assumption || lia).
      + intros [H|(i & x & Hi & Hx & ->)]; [left; now left|].
        destruct (Nat.eq_dec x (S L)) as [->|Hne].
        * right. now exists i.
        * left. right. exists i, x. repeat split; (assumption || lia). }
  split; [exact Hlvl|]. split.
  { rewrite (add_replication_run st fs _ _ Hd Hlvl (int_str _)).
    fold T. rewrite assoc_set_all_fresh; [reflexivity | exact HTnd | exact Hfresh]. }
  split; [reflexivity|]. split; [exact Hrep'|]. split.
  { replace (Z.of_nat L + 1) with (Z.of_nat (S L)) by lia.
    apply (replicated_level n (S L) (fs ++ T)); (assumption || lia || reflexivity). }
  split.
  - intros name Hin. now apply assoc_get_app_in.
  - intros i Hi.
    assert (Hin : In (str (Z.of_nat i) ++ ".txt")%string (map fst fs))
      by (apply (proj2 Hrep); left; now exists i).
    rewrite assoc_get_app_notin.
    2:{ apply Hfresh, HT. exists i. split; [exact Hi | f_equal; lia]. }
    rewrite (assoc_get_in _ (content_of fs (str (Z.of_nat i) ++ ".txt")));
      [| exact HTnd |].
    + unfold content_of. apply in_keys_assoc_get in Hin.
      now destruct (assoc_get (str (Z.of_nat i) ++ ".txt") fs).
    + unfold T, copies. apply in_map_iff.
      exists (str (Z.of_nat i) ++ ".txt")%string.
      split; [now rewrite replica_of_shard|].
      apply (replicated_primaries _ _ _ _ Hrep). now exists i.
Qed.

Lemma two_shards_replicated_dir :
  replicated 2 1 [("0.txt", "abc"); ("1.txt", "def");
                  ("0-1.txt", "abc"); ("1-1.txt", "def")]%string.
Proof.
  split.
  - repeat constructor; simpl; intuition discriminate.
  - intros name. cbn [map fst In]. split.
    + intros [<-|[<-|[<-|[<-|[]]]]].
      * left. exists 0%nat. split; [lia | reflexivity].
      * left. exists 1%nat. split; [lia | reflexivity].
      * right. exists 0%nat, 1%nat. repeat split; (lia || reflexivity).
      * right. exists 1%nat, 1%nat. repeat split; (lia || reflexivity).
    + intros [(i & Hi & ->)|(i & x & Hi & Hx & ->)].
      * destruct i as [|[|i]]; [now left | right; now left | lia].
      * assert (x = 1%nat) by lia. subst x.
        destruct i as [|[|i]];
          [do 2 right; now left | do 3 right; now left | lia].
Qed.

Lemma add_replication_next_level_witness :
  exists st' fs',
    current_replication two_shards_replicated
    = (Ok (str (Z.of_nat 1)), two_shards_replicated) /\
    add_replication two_shards_replicated = (Ok tt, st') /\
    data_dir st' = Some fs' /\
    replicated 2 2 fs' /\
    current_replication st' = (Ok (str (Z.of_nat 1 + 1)), st') /\
    (forall name,
        In name (map fst [("0.txt", "abc"); ("1.txt", "def");
                          ("0-1.txt", "abc"); ("1-1.txt", "def")]%string) ->
        assoc_get name fs'
        = assoc_get name [("0.txt", "abc"); ("1.txt", "def");
                          ("0-1.txt", "abc"); ("1-1.txt", "def")]%string) /\
    (forall i, (i < 2)%nat ->
               assoc_get (replica (str (Z.of_nat i)) (Z.of_nat 1 + 1)) fs'
               = assoc_get (str (Z.of_nat i) ++ ".txt")
                   [("0.txt", "abc"); ("1.txt", "def");
                    ("0-1.txt", "abc"); ("1-1.txt", "def")]%string).
Proof.
  apply (add_replication_next_level 2 1 two_shards_replicated).
  - reflexivity.
  - apply two_shards_replicated_dir.
  - lia.
  - lia.
Defined.

End NextLevel.

(** ** One level fewer *)

Section TopLevel.

Lemma str_in_skip_no_dash (n' a r : string) :
  all_chars (fun c => negb (Ascii.eqb c "-")) a = true ->
  str_in (String "-" n') (a ++ r) = str_in (String "-" n') r.
Proof.
  induction a as [|c a IH]; [reflexivity|].
  cbn [all_chars]. intros H. apply andb_true_iff in H as [Hc Ha].
  change (str_in (String "-" n') (String c a ++ r))
    with (prefix (String "-" n') (String c (a ++ r))
          || str_in (String "-" n') (a ++ r)).
  rewrite (IH Ha). cbn [prefix].
  destruct (ascii_dec "-" c) as [<-|_]; [discriminate Hc | reflexivity].
Qed.

Lemma level_match_digit (x l : nat) :
  (1 <= x <= 9)%nat -> (1 <= l <= 9)%nat ->
  str_in ("-" ++ str (Z.of_nat l)) ("-" ++ str (Z.of_nat x) ++ ".txt")
  = (x =? l)%nat.
Proof.
  intros Hx Hl.
  do 10 (destruct x as [|x];
         [try lia; do 10 (destruct l as [|l]; [try lia; reflexivity|]); lia|]).
  lia.
Qed.

(** A replica's name contains ['-' + level] exactly at that level, for
    levels of one digit. *)
Lemma replica_matches (i x l : nat) :
  (1 <= x <= 9)%nat -> (1 <= l <= 9)%nat ->
  str_in ("-" ++ str (Z.of_nat l)) (replica (str (Z.of_nat i)) (Z.of_nat x))
  = (x =? l)%nat.
Proof.
  intros Hx Hl. unfold replica.
  change ("-" ++ str (Z.of_nat l))%string with (String "-" (str (Z.of_nat l))).
  rewrite str_in_skip_no_dash by apply str_no_dash.
  now apply level_match_digit.
Qed.

Lemma filter_filter_and {A : Type} (p q : A -> bool) (l : list A) :
  filter p (filter q l) = filter (fun x => q x && p x) l.
Proof.
  induction l as [|x l IH]; [reflexivity|]. cbn [filter].
  destruct (q x); cbn [filter andb]; [|exact IH].
  destruct (p x); now rewrite IH.
Qed.

Lemma set_data_dir_same (d : directory) (s : state) :
  data_dir s = Some d -> set_data_dir (Some d) s = s.
Proof. intros H. destruct s; cbn in *. now subst. Qed.

(** The loop of [remove_replication] over names that are all different:
    the files whose name contains ['-' + level] are gone, the others
    stay. *)
Lemma remove_loop_filter (h : string) (l : list string) :
  forall d s,
    data_dir s = Some d ->
    NoDup l ->
    (forall f, In f l -> str_in ("-" ++ h) f = true -> assoc_get f d <> None) ->
    for_each l (fun f => if str_in ("-" ++ h) f then os_remove f else ret tt) s
    = (Ok tt,
       set_data_dir
         (Some (filter (fun kv => negb (str_in ("-" ++ h) (fst kv)
                                        && existsb (String.eqb (fst kv)) l)) d)) s).
Proof.
  induction l as [|f l IH]; intros d s Hd Hnd Hpresent.
  - cbn [for_each existsb]. unfold ret. f_equal.
    rewrite (filter_ext _ (fun _ => true)), filter_true
      by (intros kv; now rewrite andb_false_r).
    symmetry. now apply set_data_dir_same.
  - inversion Hnd as [|? ? Hnotin Hnd']; subst.
    cbn [for_each]. unfold bind at 1.
    destruct (str_in ("-" ++ h) f) eqn:Hf.
    + destruct (assoc_get f d) as [c|] eqn:Hc;
        [|now destruct (Hpresent f (or_introl eq_refl) Hf)].
      rewrite (os_remove_run f c d s Hd Hc).
      rewrite (IH (assoc_del f d)); [| reflexivity | exact Hnd' |].
      * cbn [set_data_dir mapping mapfile stdout]. unfold set_data_dir.
        do 3 f_equal. unfold assoc_del. rewrite filter_filter_and.
        apply filter_ext. intros [k v]. cbn [fst existsb].
        destruct (String.eqb_spec k f) as [->|Hne]; cbn [negb andb orb].
        -- now rewrite Hf.
        -- reflexivity.
      * intros f' Hin Hm. rewrite assoc_get_del_other.
        -- apply Hpresent; [now right | exact Hm].
        -- intros ->. contradiction.
    + change (ret tt s) with (@Ok unit tt, s). cbv beta iota.
      rewrite (IH d s Hd Hnd').
      * do 3 f_equal. apply filter_ext. intros [k v]. cbn [fst existsb].
        destruct (String.eqb_spec k f) as [->|Hne]; cbn [orb]; [|reflexivity].
        now rewrite Hf.
      * intros f' Hin. apply Hpresent. now right.
Qed.

Lemma assoc_get_filter_key {V : Type} (q : string -> bool) (k : string)
      (d : list (string * V)) :
  assoc_get k (filter (fun kv => q (fst kv)) d)
  = if q k then assoc_get k d else None.
Proof.
  induction d as [|[k' v'] d IH]; cbn [filter fst assoc_get].
  - now destruct (q k).
  - destruct (q k') eqn:Hq'; cbn [assoc_get];
      destruct (String.eqb_spec k' k) as [->|Hne]; try exact IH.
    + now rewrite Hq'.
    + now rewrite IH, Hq'.
Qed.

Lemma names_filter_key {V : Type} (q : string -> bool) (d : list (string * V)) :
  map fst (filter (fun kv => q (fst kv)) d) = filter q (map fst d).
Proof.
  induction d as [|[k v] d IH]; [reflexivity|]. cbn [filter map fst].
  destruct (q k); cbn [map fst]; now rewrite IH.
Qed.

(** From a directory with the primaries of [n >= 1] shards and their
    replicas of the levels 1 to [L + 1], with [L + 1] at most 9,
    [remove_replication] deletes exactly the replicas of the level
    [L + 1]: they are gone, every other file stays with its content, only
    the directory changes in the state, and [current_replication], which
    returned [L + 1] before the call, returns [L] after it. *)
Theorem remove_replication_top_level (n L : nat) (st : state) (fs : directory) :
  data_dir st = Some fs -> replicated n (S L) fs -> (0 < n)%nat -> (S L <= 9)%nat ->
  exists fs',
    current_replication st = (Ok (str (Z.of_nat (S L))), st) /\
    remove_replication st = (Ok tt, set_data_dir (Some fs') st) /\
    replicated n L fs' /\
    current_replication (set_data_dir (Some fs') st)
    = (Ok (str (Z.of_nat L)), set_data_dir (Some fs') st) /\
    (forall i, (i < n)%nat ->
               assoc_get (replica (str (Z.of_nat i)) (Z.of_nat (S L))) fs' = None) /\
    (forall name, In name (map fst fs') ->
                  assoc_get name fs' = assoc_get name fs).
Proof.
  intros Hd Hrep Hn HL.
  assert (Hlvl : current_replication st = (Ok (str (Z.of_nat (S L))), st))
    by (apply (replicated_level n (S L) fs); assumption).
  set (q := fun name => negb (str_in ("-" ++ str (Z.of_nat (S L))) name)).
  exists (filter (fun kv => q (fst kv)) fs).
  assert (Hq_primary : forall i, q (str (Z.of_nat i) ++ ".txt")%string = true).
  { intros i. unfold q. now rewrite no_dash_no_level by apply shard_file_no_dash. }
  assert (Hq_replica : forall i x, (1 <= x <= S L)%nat ->
             q (replica (str (Z.of_nat i)) (Z.of_nat x)) = negb (x =? S L)%nat).
  { intros i x Hx. unfold q. now rewrite replica_matches by lia. }
  assert (Hrep' : replicated n L (filter (fun kv => q (fst kv)) fs)).
  { split.
    - rewrite names_filter_key. apply NoDup_filter. exact (proj1 Hrep).
    - intros name. rewrite names_filter_key, filter_In, (proj2 Hrep name). split.
      + intros [[H|(i & x & Hi & Hx & ->)] Hq]; [now left|].
        rewrite Hq_replica in Hq by exact Hx.
        destruct (Nat.eqb_spec x (S L)); [discriminate Hq|].
        right. exists i, x. repeat split; (assumption || lia).
      + intros [(i & Hi & ->)|(i & x & Hi & Hx & ->)].
        * split; [left; now exists i | apply Hq_primary].
        * split; [right; exists i, x; repeat split; (assumption || lia)|].
          rewrite Hq_replica by lia.
          destruct (Nat.eqb_spec x (S L)); [lia | reflexivity]. }
  split; [exact Hlvl|]. split.
  { unfold remove_replication, bind at 1. rewrite Hlvl.
    unfold bind at 1, listdir. rewrite Hd.
    rewrite (remove_loop_filter _ (map fst fs) fs st Hd (proj1 Hrep))
      by (intros f Hf _; now apply in_keys_assoc_get).
    apply (f_equal (fun d => (@Ok unit tt, set_data_dir (Some d) st))).
    apply filter_ext_in. intros [k v] Hin. cbn [fst]. unfold q.
    replace (existsb (String.eqb k) (map fst fs)) with true;
      [now rewrite andb_true_r|].
    symmetry. apply existsb_exists. exists k.
    split; [|apply String.eqb_refl].
    apply in_map_iff. now exists (k, v). }
  split; [exact Hrep'|]. split.
  { apply (replicated_level n L (filter (fun kv => q (fst kv)) fs));
      (assumption || lia || reflexivity). }
  split.
  - intros i Hi. rewrite assoc_get_filter_key, Hq_replica by lia.
    now rewrite Nat.eqb_refl.
  - intros name Hin. rewrite assoc_get_filter_key.
    rewrite names_filter_key in Hin. apply filter_In in Hin as [_ ->].
    reflexivity.
Qed.

Lemma remove_replication_top_level_witness :
  exists fs',
    current_replication two_shards_replicated
    = (Ok (str (Z.of_nat 1)), two_shards_replicated) /\
    remove_replication two_shards_replicated
    = (Ok tt, set_data_dir (Some fs') two_shards_replicated) /\
    replicated 2 0 fs' /\
    current_replication (set_data_dir (Some fs') two_shards_replicated)
    = (Ok (str (Z.of_nat 0)), set_data_dir (Some fs') two_shards_replicated) /\
    (forall i, (i < 2)%nat ->
               assoc_get (replica (str (Z.of_nat i)) (Z.of_nat 1)) fs' = None) /\
    (forall name,
        In name (map fst fs') ->
        assoc_get name fs'
        = assoc_get name [("0.txt", "abc"); ("1.txt", "def");
                          ("0-1.txt", "abc"); ("1-1.txt", "def")]%string).
Proof.
  apply (remove_replication_top_level 2 0 two_shards_replicated).
  - reflexivity.
  - apply two_shards_replicated_dir.
  - lia.
  - lia.
Defined.

End TopLevel.

(** ** Replication and the data that is loaded *)

Section ReplicationAndLoad.

Lemma same_shards_refl (s : state) : same_shards s s.
Proof. now split. Qed.

Lemma same_shards_trans (s1 s2 s3 : state) :
  same_shards s1 s2 -> same_shards s2 s3 -> same_shards s1 s3.
Proof.
  intros (A1 & A2) (B1 & B2). split; [congruence|].
  intros name Hn. now rewrite B2, A2.
Qed.

Lemma read_file_state (name : string) (s : state) : snd (read_file name s) = s.
Proof.
  unfold read_file. destruct (data_dir s) as [fs|]; [|reflexivity].
  now destruct (assoc_get name fs).
Qed.

Lemma write_dash_same_shards (dst content : string) (s : state) :
  str_in "-" dst = true -> same_shards s (snd (write_file dst content s)).
Proof.
  intros Hdst. unfold write_file.
  destruct (data_dir s) as [fs|] eqn:Hd; [|apply same_shards_refl].
  cbn [snd]. split; [reflexivity|]. intros name Hn.
  unfold read_file. cbn [data_dir set_data_dir]. rewrite Hd.
  rewrite assoc_get_set_other by (intros ->; congruence).
  now destruct (assoc_get name fs).
Qed.

Lemma copyfile_same_shards (src dst : string) (s : state) :
  str_in "-" dst = true -> same_shards s (snd (copyfile src dst s)).
Proof.
  intros Hdst. unfold copyfile.
  apply bind_keeps; [exact same_shards_trans | |].
  - rewrite read_file_state. apply same_shards_refl.
  - intros content s1. now apply write_dash_same_shards.
Qed.

Lemma os_remove_same_shards (f : string) (s : state) :
  str_in "-" f = true -> same_shards s (snd (os_remove f s)).
Proof.
  intros Hf. destruct (os_remove_keeps f s Hf) as (H1 & _ & _ & H4).
  now split.
Qed.

Lemma add_replication_same_shards (s : state) :
  same_shards s (snd (add_replication s)).
Proof.
  unfold add_replication.
  apply bind_keeps; [exact same_shards_trans | |].
  { rewrite listdir_state. apply same_shards_refl. }
  intros files s1. apply bind_keeps; [exact same_shards_trans | |].
  { rewrite current_replication_state. apply same_shards_refl. }
  intros h s2. apply bind_keeps; [exact same_shards_trans | |].
  { apply same_shards_refl. }
  intros level s3. apply bind_keeps; [exact same_shards_trans | |].
  - apply for_each_keeps; [exact same_shards_refl | exact same_shards_trans |].
    intros f1 s4. destruct (negb (str_in "-" f1)).
    + apply copyfile_same_shards, str_in_dash_mid.
    + apply same_shards_refl.
  - intros _ s4. unfold write_map, modify. cbn [snd].
    split; [reflexivity|]. intros name _.
    unfold read_file. cbn [data_dir set_mapfile].
    destruct (data_dir s4) as [fs|]; [destruct (assoc_get name fs)|];
      reflexivity.
Qed.

Lemma remove_replication_same_shards (s : state) :
  same_shards s (snd (remove_replication s)).
Proof.
  unfold remove_replication.
  apply bind_keeps; [exact same_shards_trans | |].
  { rewrite current_replication_state. apply same_shards_refl. }
  intros h s1. apply bind_keeps; [exact same_shards_trans | |].
  { rewrite listdir_state. apply same_shards_refl. }
  intros files s2.
  apply for_each_keeps; [exact same_shards_refl | exact same_shards_trans |].
  intros f s3. destruct (str_in ("-" ++ h) f) eqn:Hf.
  - apply os_remove_same_shards. now apply str_in_dash_weaken in Hf.
  - apply same_shards_refl.
Qed.

Lemma read_shards_ext (keys : list string) (s s' : state) :
  (forall k, In k keys ->
             fst (read_file (k ++ ".txt") s') = fst (read_file (k ++ ".txt") s)) ->
  fst (read_shards keys s') = fst (read_shards keys s).
Proof.
  induction keys as [|k keys IH]; intros H; [reflexivity|].
  cbn [read_shards]. unfold read_text, bind, ret.
  pose proof (H k (or_introl eq_refl)) as Hk.
  pose proof (read_file_state (k ++ ".txt") s) as Hs.
  pose proof (read_file_state (k ++ ".txt") s') as Hs'.
  destruct (read_file (k ++ ".txt") s) as [r s1].
  destruct (read_file (k ++ ".txt") s') as [r' s1'].
  cbn [fst snd] in *. subst r' s1 s1'.
  destruct r as [content|e]; [|reflexivity].
  assert (IH' : fst (read_shards keys s') = fst (read_shards keys s))
    by (apply IH; intros k' Hk'; apply H; now right).
  destruct (read_shards keys s) as [r2 s2].
  destruct (read_shards keys s') as [r2' s2'].
  cbn [fst] in IH'. subst r2'. now destruct r2.
Qed.

(** When no key of the mapping has a dash, [add_replication] and
    [remove_replication] never change what [load_data_from_shards]
    returns, from any state and whatever their own outcome. *)
Theorem replication_keeps_loaded_data (st : state) :
  (forall k, In k (map fst (mapping st)) -> str_in "-" k = false) ->
  fst (load_data_from_shards (exec add_replication st))
  = fst (load_data_from_shards st) /\
  fst (load_data_from_shards (exec remove_replication st))
  = fst (load_data_from_shards st).
Proof.
  intros Hkeys.
  assert (Hload : forall s', same_shards st s' ->
             fst (load_data_from_shards s') = fst (load_data_from_shards st)).
  { intros s' (Hm & Hfiles). unfold load_data_from_shards, bind, gets. rewrite Hm.
    assert (E : fst (read_shards (map fst (mapping st)) s')
                = fst (read_shards (map fst (mapping st)) st)).
    { apply read_shards_ext. intros k Hk.
      apply Hfiles, primary_no_dash, Hkeys, Hk. }
    destruct (read_shards (map fst (mapping st)) st) as [r s1].
    destruct (read_shards (map fst (mapping st)) s') as [r' s1'].
    cbn [fst] in E. subst r'. now destruct r. }
  split; apply Hload.
  - apply add_replication_same_shards.
  - apply remove_replication_same_shards.
Qed.

Lemma replication_keeps_loaded_data_witness :
  fst (load_data_from_shards (exec add_replication two_shards_replicated))
  = fst (load_data_from_shards two_shards_replicated) /\
  fst (load_data_from_shards (exec remove_replication two_shards_replicated))
  = fst (load_data_from_shards two_shards_replicated).
Proof.
  apply (replication_keeps_loaded_data two_shards_replicated).
  intros k [<-|[<-|[]]]; reflexivity.
Defined.

End ReplicationAndLoad.

(** ** Rebalancing and the replicas *)

Section StaleReplicas.

Lemma names_filter_assoc_set_all (kvs fs : directory) :
  (forall k, In k (map fst kvs) -> str_in "-" k = false) ->
  filter (str_in "-") (map fst (assoc_set_all kvs fs))
  = filter (str_in "-") (map fst fs).
Proof.
  revert fs; induction kvs as [|[k v] kvs IH]; intros fs H; [reflexivity|].
  cbn [assoc_set_all]. rewrite IH by (intros k' Hk'; apply H; now right).
  apply names_filter_assoc_set. apply H. now left.
Qed.

Lemma shard_files_no_dash (parts : list string) (name : string) :
  In name (map fst (shard_files (enumerate parts))) -> str_in "-" name = false.
Proof.
  rewrite names_enumerate. intros H.
  apply in_map_iff in H as (i & <- & _). apply shard_file_no_dash.
Qed.

(** [add_shard] rewrites the primaries only: every file whose name has
    a dash, so every replica, keeps the content it had before the shards
    were split again, and [current_replication] returns what it returned
    before. *)
Theorem add_shard_keeps_replicas (m : nat) (st : state) :
  built (S m) st ->
  exists st',
    add_shard st = (Ok tt, st') /\
    (forall name, str_in "-" name = true ->
                  fst (read_file name st') = fst (read_file name st)) /\
    fst (current_replication st') = fst (current_replication st).
Proof.
  intros Hb. destruct (built_load _ _ Hb) as (data & Hload).
  destruct (generate_sharded_data_positive (Z.of_nat m + 2) data)
    as (parts & Hgen & _ & Hlen); [lia|].
  eexists. split; [apply (add_shard_run m data parts st Hb Hload Hgen)|].
  cbv zeta. destruct Hb as (fs & _ & _ & Hd & _).
  assert (Hdir : data_dir (after_write_shards (enumerate parts) st)
                 = Some (assoc_set_all (shard_files (enumerate parts)) fs)).
  { destruct parts as [|d parts]; [simpl in Hlen; lia|].
    unfold enumerate. cbn [enumerate_from].
    now rewrite data_dir_after_write_shards, Hd. }
  split.
  - intros name Hname. unfold read_file. cbn [data_dir set_mapfile].
    rewrite Hdir, Hd. rewrite assoc_get_set_all_notin.
    + now destruct (assoc_get name fs).
    + intros Hin. apply shard_files_no_dash in Hin. congruence.
  - unfold current_replication, bind, listdir. cbn [data_dir set_mapfile].
    rewrite Hdir, Hd.
    rewrite names_filter_assoc_set_all by apply shard_files_no_dash.
    unfold lift. now destruct (max_str _).
Qed.

Lemma add_shard_keeps_replicas_witness :
  exists st',
    add_shard two_shards_replicated = (Ok tt, st') /\
    (forall name, str_in "-" name = true ->
                  fst (read_file name st')
                  = fst (read_file name two_shards_replicated)) /\
    fst (current_replication st')
    = fst (current_replication two_shards_replicated).
Proof.
  apply (add_shard_keeps_replicas 1 two_shards_replicated).
  apply two_shards_replicated_built.
Defined.

End StaleReplicas.

(** ** Building with any positive count *)

Section AnyCount.

(** From an empty mapping, [build_shards] followed by
    [load_data_from_shards] returns the data for every positive count
    and every data without a carriage return: also when the data is
    empty, and when the count is above [len(data)], where all shards but
    the last are empty. *)
Theorem build_shards_load_any_count (count : Z) (data : string) (st : state) :
  mapping st = [] -> 0 < count ->
  str_in (String CR "") data = false ->
  exists st',
    build_shards count data st = (Ok None, st') /\
    List.length (mapping st') = Z.to_nat count /\
    load_data_from_shards st' = (Ok data, st').
Proof.
  intros Hm Hc Hcr.
  destruct (generate_sharded_data_positive count data Hc)
    as (parts & Hgen & Hjoin & Hlen).
  eexists. split; [apply (build_shards_run _ _ _ _ Hm Hgen)|].
  cbv zeta. cbn [mapping set_mapfile].
  assert (Hkeys : map fst (mapping (after_write_shards (enumerate parts) st))
                  = shard_keys (List.length parts))
    by (rewrite mapping_after_write_shards by exact Hm; apply keys_enumerate).
  split.
  - rewrite <- Hlen, <- (length_map fst), Hkeys.
    unfold shard_keys. now rewrite length_map, length_seq.
  - apply str_in_char_false in Hcr. rewrite <- Hjoin in Hcr.
    rewrite <- Hjoin at 1.
    destruct parts as [|d parts]; [simpl in Hlen; lia|].
    eapply load_written_clean;
      [exact Hkeys | apply data_dir_after_write_shards | exact Hcr].
Qed.

Lemma build_shards_load_any_count_witness :
  exists st',
    build_shards 3 "" fresh = (Ok None, st') /\
    List.length (mapping st') = Z.to_nat 3 /\
    load_data_from_shards st' = (Ok ""%string, st').
Proof.
  apply (build_shards_load_any_count 3 "" fresh);
    [reflexivity | lia | reflexivity].
Defined.

End AnyCount.
